(** * genbase: the parse / collect / classify pipeline of [parsing.go]

    A shallow embedding of [parsing.go] (package [genbase]) together with
    the parts of the Go standard library it calls: the syntax trees of
    [go/ast], the traversal [ast.Inspect], [strings.HasSuffix] and the
    string formatting used for error messages and import paths.

    Go pointers that the code tests against [nil] are [option]s, slices
    are [list]s, a Go [(value, error)] result is a [result], and the
    closure that [TypeInfos] hands to [ast.Inspect] threads the slice it
    appends to as explicit state. *)

From stdpp Require Import base list strings.

Local Open Scope string_scope.
Local Open Scope list_scope.

#[local] Set Warnings "-register-all".

(** ** [go/token] *)

Module token.

(** The tokens that can head an [ast.GenDecl], the illegal token, and
    every other token (operators, keywords) by its spelling. *)
Inductive Token : Type :=
| ILLEGAL
| IMPORT
| CONST
| TYPE
| VAR
| Other (spelling : string).

#[global] Instance Token_eq_dec : EqDecision Token.
Proof. solve_decision. Defined.

End token.

(** ** [strings] and [fmt] *)

Module strings.

(** [strings.HasSuffix(s, suffix)]:
    [len(s) >= len(suffix) && s[len(s)-len(suffix):] == suffix]. *)
Definition HasSuffix (s suffix : string) : bool :=
  (String.length suffix <=? String.length s)%nat
  && String.eqb
       (String.substring (String.length s - String.length suffix)
                         (String.length suffix) s)
       suffix.

End strings.

(** The one-character string holding a double quote (byte 34). *)
Definition dquote : string := String (Ascii.ascii_of_nat 34) EmptyString.

(** ** [go/ast] *)

Module ast.

Record Comment : Type := mkComment { Comment_Text : string }.

Record CommentGroup : Type := mkCommentGroup { CommentGroup_List : list Comment }.

Record Ident : Type := mkIdent { Ident_Name : string }.

Record BasicLit : Type := mkBasicLit { BasicLit_Value : string }.

(** [*ast.ImportSpec]; [Name] is [nil] for an import without alias. *)
Record ImportSpec : Type := mkImportSpec {
  ImportSpec_Doc : option CommentGroup;
  ImportSpec_Name : option Ident;
  ImportSpec_Path : BasicLit;
  ImportSpec_Comment : option CommentGroup
}.

(** Expressions and types, fields, statements, general declarations
    and their specs.  A [*ast.FieldList] is the list of its fields, a
    [*ast.BlockStmt] held in a [Body] field the list of its statements,
    and the [*ast.FuncType] of a function literal its two field lists. *)
Inductive Expr : Type :=
| BadExpr
| IdentExpr (id : Ident)
| Ellipsis (Elt : option Expr)
| BasicLitExpr (lit : BasicLit)
| FuncLit (Params : option (list Field)) (Results : option (list Field))
          (Body : list Stmt)
| CompositeLit (Type_ : option Expr) (Elts : list Expr)
| ParenExpr (X : Expr)
| SelectorExpr (X : Expr) (Sel : Ident)
| IndexExpr (X Index : Expr)
| SliceExpr (X : Expr) (Low High Max : option Expr)
| TypeAssertExpr (X : Expr) (Type_ : option Expr)
| CallExpr (Fun : Expr) (Args : list Expr)
| StarExpr (X : Expr)
| UnaryExpr (Op : token.Token) (X : Expr)
| BinaryExpr (X : Expr) (Op : token.Token) (Y : Expr)
| KeyValueExpr (Key Value : Expr)
| ArrayType (Len : option Expr) (Elt : Expr)
| StructType (Fields : list Field)
| FuncType (Params : option (list Field)) (Results : option (list Field))
| InterfaceType (Methods : list Field)
| MapType (Key Value : Expr)
| ChanType (Value : Expr)
with Field : Type :=
| mkField (Doc : option CommentGroup) (Names : list Ident) (Type_ : Expr)
          (Tag : option BasicLit) (Comment : option CommentGroup)
with Stmt : Type :=
| BadStmt
| DeclStmt (Decl : GenDecl)
| EmptyStmt
| LabeledStmt (Label : Ident) (Stmt_ : Stmt)
| ExprStmt (X : Expr)
| SendStmt (Chan Value : Expr)
| IncDecStmt (X : Expr)
| AssignStmt (Lhs Rhs : list Expr)
| GoStmt (Fun : Expr) (Args : list Expr)
| DeferStmt (Fun : Expr) (Args : list Expr)
| ReturnStmt (Results : list Expr)
| BranchStmt (Label : option Ident)
| BlockStmt (List : list Stmt)
| IfStmt (Init : option Stmt) (Cond : Expr) (Body : list Stmt)
         (Else : option Stmt)
| CaseClause (List : list Expr) (Body : list Stmt)
| SwitchStmt (Init : option Stmt) (Tag : option Expr) (Body : list Stmt)
| TypeSwitchStmt (Init : option Stmt) (Assign : Stmt) (Body : list Stmt)
| CommClause (Comm : option Stmt) (Body : list Stmt)
| SelectStmt (Body : list Stmt)
| ForStmt (Init : option Stmt) (Cond : option Expr) (Post : option Stmt)
          (Body : list Stmt)
| RangeStmt (Key Value : option Expr) (X : Expr) (Body : list Stmt)
with GenDecl : Type :=
| mkGenDecl (Doc : option CommentGroup) (Tok : token.Token)
            (Specs : list Spec)
with Spec : Type :=
| ImportSpecS (s : ImportSpec)
| ValueSpec (Doc : option CommentGroup) (Names : list Ident)
            (Type_ : option Expr) (Values : list Expr)
            (Comment : option CommentGroup)
| TypeSpecS (s : TypeSpec)
with TypeSpec : Type :=
| mkTypeSpec (Doc : option CommentGroup) (Name : Ident) (Type_ : Expr)
             (Comment : option CommentGroup).

Definition Field_Type (f : Field) : Expr :=
  let 'mkField _ _ Type_ _ _ := f in Type_.

Definition GenDecl_Doc (d : GenDecl) : option CommentGroup :=
  let 'mkGenDecl Doc _ _ := d in Doc.
Definition GenDecl_Tok (d : GenDecl) : token.Token :=
  let 'mkGenDecl _ Tok _ := d in Tok.
Definition GenDecl_Specs (d : GenDecl) : list Spec :=
  let 'mkGenDecl _ _ Specs := d in Specs.

Definition TypeSpec_Doc (s : TypeSpec) : option CommentGroup :=
  let 'mkTypeSpec Doc _ _ _ := s in Doc.
Definition TypeSpec_Name (s : TypeSpec) : Ident :=
  let 'mkTypeSpec _ Name _ _ := s in Name.
Definition TypeSpec_Type (s : TypeSpec) : Expr :=
  let 'mkTypeSpec _ _ Type_ _ := s in Type_.

(** Top-level declarations; [Body] is [nil] for a function declared
    without body. *)
Inductive Decl : Type :=
| BadDecl
| GenDeclD (d : GenDecl)
| FuncDecl (Doc : option CommentGroup) (Recv : option (list Field))
           (Name : Ident) (Params : option (list Field))
           (Results : option (list Field)) (Body : option (list Stmt)).

(** [*ast.File]: [Imports] lists the import specs of the file. *)
Record File : Type := mkFile {
  File_Doc : option CommentGroup;
  File_Name : Ident;
  File_Decls : list Decl;
  File_Imports : list ImportSpec
}.

(** The values of the interface [ast.Node] that a walk can meet. *)
Inductive Node : Type :=
| CommentNode (c : Comment)
| CommentGroupNode (g : CommentGroup)
| FieldNode (f : Field)
| FieldListNode (l : list Field)
| ExprNode (e : Expr)
| StmtNode (s : Stmt)
| SpecNode (s : Spec)
| DeclNode (d : Decl)
| FileNode (f : File).

Definition IdentNode (id : Ident) : Node := ExprNode (IdentExpr id).
Definition BasicLitNode (lit : BasicLit) : Node := ExprNode (BasicLitExpr lit).
Definition BlockNode (body : list Stmt) : Node := StmtNode (BlockStmt body).
Definition FuncTypeNode (params results : option (list Field)) : Node :=
  ExprNode (FuncType params results).
Definition CallNode (fn : Expr) (args : list Expr) : Node :=
  ExprNode (CallExpr fn args).

(** *** The children of a node, in the order [ast.Walk] visits them *)

Definition optNodes {A : Type} (mk : A -> Node) (o : option A) : list Node :=
  match o with
  | Some x => [mk x]
  | None => []
  end.

Definition exprChildren (e : Expr) : list Node :=
  match e with
  | BadExpr | IdentExpr _ | BasicLitExpr _ => []
  | Ellipsis Elt => optNodes ExprNode Elt
  | FuncLit Params Results Body => [FuncTypeNode Params Results; BlockNode Body]
  | CompositeLit Type_ Elts => optNodes ExprNode Type_ ++ map ExprNode Elts
  | ParenExpr X => [ExprNode X]
  | SelectorExpr X Sel => [ExprNode X; IdentNode Sel]
  | IndexExpr X Index => [ExprNode X; ExprNode Index]
  | SliceExpr X Low High Max =>
      [ExprNode X] ++ optNodes ExprNode Low ++ optNodes ExprNode High
      ++ optNodes ExprNode Max
  | TypeAssertExpr X Type_ => [ExprNode X] ++ optNodes ExprNode Type_
  | CallExpr Fun Args => [ExprNode Fun] ++ map ExprNode Args
  | StarExpr X => [ExprNode X]
  | UnaryExpr _ X => [ExprNode X]
  | BinaryExpr X _ Y => [ExprNode X; ExprNode Y]
  | KeyValueExpr Key Value => [ExprNode Key; ExprNode Value]
  | ArrayType Len Elt => optNodes ExprNode Len ++ [ExprNode Elt]
  | StructType Fields => [FieldListNode Fields]
  | FuncType Params Results =>
      optNodes FieldListNode Params ++ optNodes FieldListNode Results
  | InterfaceType Methods => [FieldListNode Methods]
  | MapType Key Value => [ExprNode Key; ExprNode Value]
  | ChanType Value => [ExprNode Value]
  end.

Definition fieldChildren (f : Field) : list Node :=
  match f with
  | mkField Doc Names Type_ Tag Comment =>
      optNodes CommentGroupNode Doc ++ map IdentNode Names ++ [ExprNode Type_]
      ++ optNodes BasicLitNode Tag ++ optNodes CommentGroupNode Comment
  end.

Definition stmtChildren (s : Stmt) : list Node :=
  match s with
  | BadStmt | EmptyStmt => []
  | DeclStmt Decl => [DeclNode (GenDeclD Decl)]
  | LabeledStmt Label Stmt_ => [IdentNode Label; StmtNode Stmt_]
  | ExprStmt X => [ExprNode X]
  | SendStmt Chan Value => [ExprNode Chan; ExprNode Value]
  | IncDecStmt X => [ExprNode X]
  | AssignStmt Lhs Rhs => map ExprNode Lhs ++ map ExprNode Rhs
  | GoStmt Fun Args => [CallNode Fun Args]
  | DeferStmt Fun Args => [CallNode Fun Args]
  | ReturnStmt Results => map ExprNode Results
  | BranchStmt Label => optNodes IdentNode Label
  | BlockStmt List => map StmtNode List
  | IfStmt Init Cond Body Else =>
      optNodes StmtNode Init ++ [ExprNode Cond; BlockNode Body]
      ++ optNodes StmtNode Else
  | CaseClause List Body => map ExprNode List ++ map StmtNode Body
  | SwitchStmt Init Tag Body =>
      optNodes StmtNode Init ++ optNodes ExprNode Tag ++ [BlockNode Body]
  | TypeSwitchStmt Init Assign Body =>
      optNodes StmtNode Init ++ [StmtNode Assign; BlockNode Body]
  | CommClause Comm Body => optNodes StmtNode Comm ++ map StmtNode Body
  | SelectStmt Body => [BlockNode Body]
  | ForStmt Init Cond Post Body =>
      optNodes StmtNode Init ++ optNodes ExprNode Cond ++ optNodes StmtNode Post
      ++ [BlockNode Body]
  | RangeStmt Key Value X Body =>
      optNodes ExprNode Key ++ optNodes ExprNode Value
      ++ [ExprNode X; BlockNode Body]
  end.

Definition specChildren (s : Spec) : list Node :=
  match s with
  | ImportSpecS i =>
      optNodes CommentGroupNode (ImportSpec_Doc i)
      ++ optNodes IdentNode (ImportSpec_Name i)
      ++ [BasicLitNode (ImportSpec_Path i)]
      ++ optNodes CommentGroupNode (ImportSpec_Comment i)
  | ValueSpec Doc Names Type_ Values Comment =>
      optNodes CommentGroupNode Doc ++ map IdentNode Names
      ++ optNodes ExprNode Type_ ++ map ExprNode Values
      ++ optNodes CommentGroupNode Comment
  | TypeSpecS (mkTypeSpec Doc Name Type_ Comment) =>
      optNodes CommentGroupNode Doc ++ [IdentNode Name; ExprNode Type_]
      ++ optNodes CommentGroupNode Comment
  end.

Definition declChildren (d : Decl) : list Node :=
  match d with
  | BadDecl => []
  | GenDeclD (mkGenDecl Doc _ Specs) =>
      optNodes CommentGroupNode Doc ++ map SpecNode Specs
  | FuncDecl Doc Recv Name Params Results Body =>
      optNodes CommentGroupNode Doc ++ optNodes FieldListNode Recv
      ++ [IdentNode Name; FuncTypeNode Params Results]
      ++ optNodes BlockNode Body
  end.

Definition children (n : Node) : list Node :=
  match n with
  | CommentNode _ => []
  | CommentGroupNode g => map CommentNode (CommentGroup_List g)
  | FieldNode f => fieldChildren f
  | FieldListNode l => map FieldNode l
  | ExprNode e => exprChildren e
  | StmtNode s => stmtChildren s
  | SpecNode s => specChildren s
  | DeclNode d => declChildren d
  | FileNode f =>
      optNodes CommentGroupNode (File_Doc f) ++ [IdentNode (File_Name f)]
      ++ map DeclNode (File_Decls f)
  end.

(** *** [ast.Walk] with the visitor of [ast.Inspect]

    [Inspect(node, f)] is [Walk(inspector(f), node)]: [f] is called on
    the node; when it answers [true] the children are walked in source
    order and [f(nil)] is called afterwards.  The visitor is a closure;
    [v] receives the state it captured and returns the new one. *)
Section Walk.
Context {St : Type}.
Variable v : option Node -> St -> bool * St.

Definition visit (node : Node) (walkChildren : St -> St) (s : St) : St :=
  let '(descend, s1) := v (Some node) s in
  if descend then snd (v None (walkChildren s1)) else s1.

Definition walkList {A : Type} (W : A -> St -> St) : list A -> St -> St :=
  fix go (l : list A) (s : St) : St :=
    match l with
    | [] => s
    | x :: l' => go l' (W x s)
    end.

Definition walkOpt {A : Type} (W : A -> St -> St) (o : option A) (s : St) : St :=
  match o with
  | Some x => W x s
  | None => s
  end.

Definition andThen (w1 w2 : St -> St) : St -> St := fun s => w2 (w1 s).
Local Infix ">->" := andThen (at level 61, left associativity).

Definition walkComment (c : Comment) : St -> St :=
  visit (CommentNode c) id.
Definition walkCommentGroup (g : CommentGroup) : St -> St :=
  visit (CommentGroupNode g) (walkList walkComment (CommentGroup_List g)).
Definition walkIdent (i : Ident) : St -> St := visit (IdentNode i) id.
Definition walkBasicLit (lit : BasicLit) : St -> St :=
  visit (BasicLitNode lit) id.
Definition walkImportSpec (s : ImportSpec) : St -> St :=
  visit (SpecNode (ImportSpecS s))
    (walkOpt walkCommentGroup (ImportSpec_Doc s) >->
     walkOpt walkIdent (ImportSpec_Name s) >->
     walkBasicLit (ImportSpec_Path s) >->
     walkOpt walkCommentGroup (ImportSpec_Comment s)).

(** Nodes that the embedding keeps inside their parent. *)
Definition walkFieldListW (WF : Field -> St -> St) (l : list Field) : St -> St :=
  visit (FieldListNode l) (walkList WF l).
Definition walkFuncTypeW (WF : Field -> St -> St)
    (params results : option (list Field)) : St -> St :=
  visit (FuncTypeNode params results)
    (walkOpt (walkFieldListW WF) params >-> walkOpt (walkFieldListW WF) results).
Definition walkBlockW (WS : Stmt -> St -> St) (body : list Stmt) : St -> St :=
  visit (BlockNode body) (walkList WS body).
Definition walkCallW (WE : Expr -> St -> St) (fn : Expr) (args : list Expr)
    : St -> St :=
  visit (CallNode fn args) (WE fn >-> walkList WE args).

Fixpoint walkExpr (e : Expr) {struct e} : St -> St :=
  visit (ExprNode e)
    match e with
    | BadExpr | IdentExpr _ | BasicLitExpr _ => id
    | Ellipsis Elt => walkOpt walkExpr Elt
    | FuncLit Params Results Body =>
        walkFuncTypeW walkField Params Results >-> walkBlockW walkStmt Body
    | CompositeLit Type_ Elts => walkOpt walkExpr Type_ >-> walkList walkExpr Elts
    | ParenExpr X => walkExpr X
    | SelectorExpr X Sel => walkExpr X >-> walkIdent Sel
    | IndexExpr X Index => walkExpr X >-> walkExpr Index
    | SliceExpr X Low High Max =>
        walkExpr X >-> walkOpt walkExpr Low >-> walkOpt walkExpr High >->
        walkOpt walkExpr Max
    | TypeAssertExpr X Type_ => walkExpr X >-> walkOpt walkExpr Type_
    | CallExpr Fun Args => walkExpr Fun >-> walkList walkExpr Args
    | StarExpr X => walkExpr X
    | UnaryExpr _ X => walkExpr X
    | BinaryExpr X _ Y => walkExpr X >-> walkExpr Y
    | KeyValueExpr Key Value => walkExpr Key >-> walkExpr Value
    | ArrayType Len Elt => walkOpt walkExpr Len >-> walkExpr Elt
    | StructType Fields => walkFieldListW walkField Fields
    | FuncType Params Results =>
        walkOpt (walkFieldListW walkField) Params >->
        walkOpt (walkFieldListW walkField) Results
    | InterfaceType Methods => walkFieldListW walkField Methods
    | MapType Key Value => walkExpr Key >-> walkExpr Value
    | ChanType Value => walkExpr Value
    end
with walkField (f : Field) {struct f} : St -> St :=
  visit (FieldNode f)
    match f with
    | mkField Doc Names Type_ Tag Comment =>
        walkOpt walkCommentGroup Doc >-> walkList walkIdent Names >->
        walkExpr Type_ >-> walkOpt walkBasicLit Tag >->
        walkOpt walkCommentGroup Comment
    end
with walkStmt (s : Stmt) {struct s} : St -> St :=
  visit (StmtNode s)
    match s with
    | BadStmt | EmptyStmt => id
    | DeclStmt Decl => walkGenDecl Decl
    | LabeledStmt Label Stmt_ => walkIdent Label >-> walkStmt Stmt_
    | ExprStmt X => walkExpr X
    | SendStmt Chan Value => walkExpr Chan >-> walkExpr Value
    | IncDecStmt X => walkExpr X
    | AssignStmt Lhs Rhs => walkList walkExpr Lhs >-> walkList walkExpr Rhs
    | GoStmt Fun Args => walkCallW walkExpr Fun Args
    | DeferStmt Fun Args => walkCallW walkExpr Fun Args
    | ReturnStmt Results => walkList walkExpr Results
    | BranchStmt Label => walkOpt walkIdent Label
    | BlockStmt List => walkList walkStmt List
    | IfStmt Init Cond Body Else =>
        walkOpt walkStmt Init >-> walkExpr Cond >-> walkBlockW walkStmt Body >->
        walkOpt walkStmt Else
    | CaseClause List Body => walkList walkExpr List >-> walkList walkStmt Body
    | SwitchStmt Init Tag Body =>
        walkOpt walkStmt Init >-> walkOpt walkExpr Tag >-> walkBlockW walkStmt Body
    | TypeSwitchStmt Init Assign Body =>
        walkOpt walkStmt Init >-> walkStmt Assign >-> walkBlockW walkStmt Body
    | CommClause Comm Body => walkOpt walkStmt Comm >-> walkList walkStmt Body
    | SelectStmt Body => walkBlockW walkStmt Body
    | ForStmt Init Cond Post Body =>
        walkOpt walkStmt Init >-> walkOpt walkExpr Cond >-> walkOpt walkStmt Post >->
        walkBlockW walkStmt Body
    | RangeStmt Key Value X Body =>
        walkOpt walkExpr Key >-> walkOpt walkExpr Value >-> walkExpr X >->
        walkBlockW walkStmt Body
    end
with walkGenDecl (d : GenDecl) {struct d} : St -> St :=
  visit (DeclNode (GenDeclD d))
    match d with
    | mkGenDecl Doc _ Specs =>
        walkOpt walkCommentGroup Doc >-> walkList walkSpec Specs
    end
with walkSpec (s : Spec) {struct s} : St -> St :=
  match s with
  | ImportSpecS i => walkImportSpec i
  | ValueSpec Doc Names Type_ Values Comment =>
      visit (SpecNode s)
        (walkOpt walkCommentGroup Doc >-> walkList walkIdent Names >->
         walkOpt walkExpr Type_ >-> walkList walkExpr Values >->
         walkOpt walkCommentGroup Comment)
  | TypeSpecS t => visit (SpecNode s) (walkTypeSpec t)
  end
with walkTypeSpec (t : TypeSpec) {struct t} : St -> St :=
  match t with
  | mkTypeSpec Doc Name Type_ Comment =>
      walkOpt walkCommentGroup Doc >-> walkIdent Name >-> walkExpr Type_ >->
      walkOpt walkCommentGroup Comment
  end.

Definition walkDecl (d : Decl) : St -> St :=
  match d with
  | BadDecl => visit (DeclNode d) id
  | GenDeclD g => walkGenDecl g
  | FuncDecl Doc Recv Name Params Results Body =>
      visit (DeclNode d)
        (walkOpt walkCommentGroup Doc >->
         walkOpt (walkFieldListW walkField) Recv >->
         walkIdent Name >->
         walkFuncTypeW walkField Params Results >->
         walkOpt (walkBlockW walkStmt) Body)
  end.

Definition walkFile (f : File) : St -> St :=
  visit (FileNode f)
    (walkOpt walkCommentGroup (File_Doc f) >-> walkIdent (File_Name f) >->
     walkList walkDecl (File_Decls f)).

Definition Walk (node : Node) : St -> St :=
  match node with
  | CommentNode c => walkComment c
  | CommentGroupNode g => walkCommentGroup g
  | FieldNode f => walkField f
  | FieldListNode l => walkFieldListW walkField l
  | ExprNode e => walkExpr e
  | StmtNode s => walkStmt s
  | SpecNode s => walkSpec s
  | DeclNode d => walkDecl d
  | FileNode f => walkFile f
  end.

Definition Inspect (node : Node) : St -> St := Walk node.

End Walk.

End ast.

(** ** [go/build] and [go/types]: only what [parsing.go] reads *)

Module build.

(** The three file lists of a [*build.Package] that [ParsePackageDir]
    reads. *)
Record Package : Type := mkPackage {
  GoFiles : list string;
  CgoFiles : list string;
  SFiles : list string
}.

End build.

Module types.

(** A resolved [*types.Package]; the code only stores it. *)
Record Package : Type := mkPackage {
  Package_Path : string;
  Package_Name : string
}.

End types.

(** ** Package [genbase] *)

(** A Go [error], by its message. *)
Definition error : Type := string.

(** The result [(x, nil)] or [(nil, err)] of a fallible function. *)
Inductive result (A : Type) : Type :=
| Ok (a : A)
| Err (err : error).
Arguments Ok {A} a.
Arguments Err {A} err.

(** [ErrNotStructType] shows argument is not [ast.StructType]. *)
Definition ErrNotStructType : error := "type is not ast.StructType".

(** [Parser] is center of parsing strategy. *)
Record Parser : Type := mkParser {
  SkipSemanticsCheck : bool
}.

(** [FileInfo] is [ast.File] synonym; [FileInfos] is [[]*FileInfo], whose
    entries [TypeInfos] tests against [nil]. *)
Definition FileInfo : Type := ast.File.
Definition FileInfos : Type := list (option FileInfo).

(** [PackageInfo] is specified package informations. *)
Record PackageInfo : Type := mkPackageInfo {
  Dir : string;
  Files : FileInfos;
  Types : option types.Package
}.

(** [TypeInfo] is type information gathering. *)
Record TypeInfo : Type := mkTypeInfo {
  TypeInfo_FileInfo : FileInfo;
  TypeInfo_GenDecl : ast.GenDecl;
  TypeInfo_TypeSpec : ast.TypeSpec;
  AnnotatedComment : option ast.Comment
}.

Definition TypeInfos : Type := list TypeInfo.

(** [StructTypeInfo] is [ast.StructType] synonym. *)
Record StructTypeInfo : Type := mkStructTypeInfo {
  StructTypeInfo_Fields : list ast.Field
}.

(** [FieldInfo] is [ast.Field] synonym. *)
Definition FieldInfo : Type := ast.Field.
Definition FieldInfos : Type := list FieldInfo.

(** *** Loading *)

(** What the loader asks of its surroundings: the build metadata of a
    directory ([build.Default.ImportDir]), the syntax parser
    ([parser.ParseFile], given a file name and, when there is one, the
    source text), the type checker ([types.Config.Check], which returns a
    package and an error side by side), and [pathJoinAll], a helper of
    this package that is defined outside [parsing.go]. *)
Class Host : Type := mkHost {
  ImportDir : string -> result build.Package;
  ParseFile : string -> option string -> result ast.File;
  Check : string -> list (option ast.File) -> option types.Package * option error;
  pathJoinAll : string -> list string -> list string
}.

(** [AstFile] returns [*ast.File]. *)
Definition FileInfo_AstFile (file : option FileInfo) : option ast.File := file.

(** [AstFiles] returns [[]*ast.File]. *)
Definition FileInfos_AstFiles (files : FileInfos) : list (option ast.File) :=
  map FileInfo_AstFile files.

Section Loading.
Context `{Host}.

(** The loop of [parsePackage] over [fileNames], from index [idx] on,
    with the files gathered so far. *)
Fixpoint parseFiles (codes : list string) (idx : nat) (fileNames : list string)
    (files : FileInfos) : result FileInfos :=
  match fileNames with
  | [] => Ok files
  | fileName :: rest =>
      if negb (strings.HasSuffix fileName ".go") then
        parseFiles codes (S idx) rest files
      else
        let code := codes !! idx in
        match ParseFile fileName code with
        | Err err => Err ("parsing package: " +:+ fileName +:+ ": " +:+ err)
        | Ok parsedFile =>
            parseFiles codes (S idx) rest (files ++ [Some parsedFile])
        end
  end.

Definition parsePackage (p : Parser) (directory : string)
    (fileNames : list string) (codes : list string) : result PackageInfo :=
  match parseFiles codes 0 fileNames [] with
  | Err err => Err err
  | Ok files =>
      if (length files =? 0)%nat then
        Err (directory +:+ ": no buildable Go files")
      else
        let pkg := mkPackageInfo directory files None in
        (* resolve types *)
        let '(typesPkg, err) := Check (Dir pkg) (FileInfos_AstFiles files) in
        match err with
        | Some e =>
            if SkipSemanticsCheck p then Ok pkg else Err e
        | None => Ok (mkPackageInfo (Dir pkg) (Files pkg) typesPkg)
        end
  end.

(** [ParsePackageDir] parses specified directory. *)
Definition ParsePackageDir (p : Parser) (directory : string) : result PackageInfo :=
  match ImportDir directory with
  | Err err => Err ("cannot process directory " +:+ directory +:+ ": " +:+ err)
  | Ok pkg =>
      let names := [] in
      let names := names ++ build.GoFiles pkg in
      let names := names ++ build.CgoFiles pkg in
      let names := names ++ build.SFiles pkg in
      let names := pathJoinAll directory names in
      parsePackage p directory names []
  end.

(** [ParsePackageFiles] parses specified files. *)
Definition ParsePackageFiles (p : Parser) (fileNames : list string) : result PackageInfo :=
  parsePackage p "." fileNames [].

Definition ParseStringSource (p : Parser) (fileName : string) (code : string)
    : result PackageInfo :=
  parsePackage p "." [fileName] [code].

End Loading.

(** *** Collecting type declarations *)

(** The loop over [decl.Specs] in the closure of [TypeInfos]. *)
Fixpoint collectSpecs (file : FileInfo) (decl : ast.GenDecl) (specs : list ast.Spec)
    (types : TypeInfos) (found : bool) : TypeInfos * bool :=
  match specs with
  | [] => (types, found)
  | spec :: rest =>
      match spec with
      | ast.TypeSpecS ts =>
          collectSpecs file decl rest (types ++ [mkTypeInfo file decl ts None]) true
      | _ => collectSpecs file decl rest types found
      end
  end.

(** The closure that [TypeInfos] passes to [ast.Inspect]; it captures
    [file] and the slice [types]. *)
Definition inspectTypes (file : FileInfo) (node : option ast.Node) (types : TypeInfos)
    : bool * TypeInfos :=
  match node with
  | Some (ast.DeclNode (ast.GenDeclD decl)) =>
      if bool_decide (ast.GenDecl_Tok decl ≠ token.TYPE) then (true, types)
      else
        let '(types, found) :=
          collectSpecs file decl (ast.GenDecl_Specs decl) types false in
        (negb found, types)
  | _ => (true, types)
  end.

(** [TypeInfos] is gathering TypeInfos, it included in package. *)
Definition PackageInfo_TypeInfos (pkg : PackageInfo) : TypeInfos :=
  fold_left
    (fun types file =>
       match file with
       | None => types
       | Some file => ast.Inspect (inspectTypes file) (ast.FileNode file) types
       end)
    (Files pkg) [].

(** [Name] return type name. *)
Definition TypeInfo_Name (t : TypeInfo) : string :=
  ast.Ident_Name (ast.TypeSpec_Name (TypeInfo_TypeSpec t)).

(** [Doc] returns [*ast.CommentGroup] of TypeInfo. *)
Definition TypeInfo_Doc (t : TypeInfo) : option ast.CommentGroup :=
  match ast.TypeSpec_Doc (TypeInfo_TypeSpec t) with
  | Some doc => Some doc
  | None =>
      match ast.GenDecl_Doc (TypeInfo_GenDecl t) with
      | Some doc => Some doc
      | None => None
      end
  end.

(** The assignment [t.AnnotatedComment = c]. *)
Definition setAnnotatedComment (t : TypeInfo) (c : ast.Comment) : TypeInfo :=
  mkTypeInfo (TypeInfo_FileInfo t) (TypeInfo_GenDecl t) (TypeInfo_TypeSpec t) (Some c).

Section Tagged.

(** Whether a comment line carries a tag: the matching rule of the
    annotation collaborator, which the spec leaves open. *)
Variable carriesTag : string -> string -> bool.

(** Modelled from the spec: [findAnnotation] is defined outside
    [parsing.go].  The first comment line of the documentation comment
    that carries the tag wins, and an absent documentation comment
    matches no tag. *)
Definition findAnnotation (cg : option ast.CommentGroup) (tag : string)
    : option ast.Comment :=
  match cg with
  | None => None
  | Some g =>
      List.find (fun c => carriesTag (ast.Comment_Text c) tag)
                (ast.CommentGroup_List g)
  end.

(** [CollectTaggedTypeInfos] collects tagged TypeInfos. *)
Definition PackageInfo_CollectTaggedTypeInfos (pkg : PackageInfo) (tag : string)
    : TypeInfos :=
  let ret := [] in
  let types := PackageInfo_TypeInfos pkg in
  fold_left
    (fun ret t =>
       match findAnnotation (TypeInfo_Doc t) tag with
       | Some c =>
           let t := setAnnotatedComment t c in
           ret ++ [t]
       | None => ret
       end)
    types ret.

End Tagged.

(** The inner loop of [CollectTypeInfos]: whether some entry of
    [typeNames] is the name of [t]. *)
Fixpoint matchesName (t : TypeInfo) (typeNames : list string) : bool :=
  match typeNames with
  | [] => false
  | name :: rest =>
      if String.eqb (TypeInfo_Name t) name then true else matchesName t rest
  end.

(** [CollectTypeInfos] collects specified TypeInfos. *)
Definition PackageInfo_CollectTypeInfos (pkg : PackageInfo) (typeNames : list string)
    : TypeInfos :=
  let ret := [] in
  let types := PackageInfo_TypeInfos pkg in
  fold_left (fun ret t => if matchesName t typeNames then ret ++ [t] else ret)
            types ret.

(** [Name] returns package name; indexing an empty [Files] or reading
    through a [nil] file panics, which is [None] here. *)
Definition PackageInfo_Name (pkg : PackageInfo) : option string :=
  match Files pkg with
  | Some file :: _ => Some (ast.Ident_Name (ast.File_Name file))
  | _ => None
  end.

(** *** Import lookup *)

(** [FindImportSpecByIdent] finds [*ast.ImportSpec] by package ident. *)
Fixpoint findImport (imports : list ast.ImportSpec) (packageIdent : string)
    : option ast.ImportSpec :=
  match imports with
  | [] => None
  | imp :: rest =>
      if match ast.ImportSpec_Name imp with
         | Some name => String.eqb (ast.Ident_Name name) packageIdent
         | None => false
         end
      then Some imp (* import foo "foobar" *)
      else if strings.HasSuffix (ast.BasicLit_Value (ast.ImportSpec_Path imp))
                                ("/" +:+ packageIdent +:+ dquote)
      then Some imp (* import "favclip/foo" *)
      else if String.eqb (ast.BasicLit_Value (ast.ImportSpec_Path imp))
                         (dquote +:+ packageIdent +:+ dquote)
      then Some imp (* import "foo" *)
      else findImport rest packageIdent
  end.

Definition FileInfo_FindImportSpecByIdent (file : FileInfo) (packageIdent : string)
    : option ast.ImportSpec :=
  findImport (ast.File_Imports file) packageIdent.

(** *** Records and fields *)

(** [StructType] returns [*StructTypeInfo]. *)
Definition TypeInfo_StructType (t : TypeInfo) : result StructTypeInfo :=
  match ast.TypeSpec_Type (TypeInfo_TypeSpec t) with
  | ast.StructType fields => Ok (mkStructTypeInfo fields)
  | _ => Err ErrNotStructType
  end.

(** [FieldInfos] returns FieldInfos of struct. *)
Definition StructTypeInfo_FieldInfos (st : StructTypeInfo) : FieldInfos :=
  fold_left (fun fields field => fields ++ [field]) (StructTypeInfo_Fields st) [].

(** [IsPtr] returns true if FieldInfo is pointer, otherwise returns false. *)
Definition FieldInfo_IsPtr (f : FieldInfo) : bool :=
  match ast.Field_Type f with
  | ast.StarExpr _ => true
  | _ => false
  end.

(** [IsArray] returns true if FieldInfo is array, otherwise returns false. *)
Definition FieldInfo_IsArray (f : FieldInfo) : bool :=
  match ast.Field_Type f with
  | ast.ArrayType _ _ => true
  | _ => false
  end.

(** [IsPtrArray] returns true if FieldInfo is pointer array, otherwise
    returns false. *)
Definition FieldInfo_IsPtrArray (f : FieldInfo) : bool :=
  match ast.Field_Type f with
  | ast.StarExpr X =>
      match X with
      | ast.ArrayType _ _ => true
      | _ => false
      end
  | _ => false
  end.

(** [IsArrayPtr] returns true if FieldInfo is pointer of array, otherwise
    returns false. *)
Definition FieldInfo_IsArrayPtr (f : FieldInfo) : bool :=
  match ast.Field_Type f with
  | ast.ArrayType _ Elt =>
      match Elt with
      | ast.StarExpr _ => true
      | _ => false
      end
  | _ => false
  end.

(** [IsPtrArrayPtr] returns true if FieldInfo is pointer of pointer array,
    otherwise returns false. *)
Definition FieldInfo_IsPtrArrayPtr (f : FieldInfo) : bool :=
  match ast.Field_Type f with
  | ast.StarExpr X =>
      match X with
      | ast.ArrayType _ Elt =>
          match Elt with
          | ast.StarExpr _ => true
          | _ => false
          end
      | _ => false
      end
  | _ => false
  end.

(** The error of a type expression that has no base type name; the spec
    fixes no message for it. *)
Definition ErrNoBaseTypeName : error := "unsupported type expression".

(** Modelled from the spec: [ExprToBaseTypeName] is defined outside
    [parsing.go].  One layer of pointer or of array/collection wrapping is
    unwrapped at a time until a terminal type expression remains: a name,
    or a package-qualified name, spelled [pkg.Name].  Any other expression
    shape is not recognized and fails. *)
Fixpoint ExprToBaseTypeName (expr : ast.Expr) : result string :=
  match expr with
  | ast.IdentExpr id => Ok (ast.Ident_Name id)
  | ast.SelectorExpr (ast.IdentExpr pkg) Sel =>
      Ok (ast.Ident_Name pkg +:+ "." +:+ ast.Ident_Name Sel)
  | ast.StarExpr X => ExprToBaseTypeName X
  | ast.ArrayType _ Elt => ExprToBaseTypeName Elt
  | _ => Err ErrNoBaseTypeName
  end.

(** The body shared by the primitive-kind predicates. *)
Definition baseTypeNameIs (f : FieldInfo) (name : string) : bool :=
  match ExprToBaseTypeName (ast.Field_Type f) with
  | Err _ => false
  | Ok typeName => String.eqb typeName name
  end.

(** [IsInt64] returns true if FieldInfo is int64, otherwise returns false. *)
Definition FieldInfo_IsInt64 (f : FieldInfo) : bool := baseTypeNameIs f "int64".

(** [IsInt] returns true if FieldInfo is int, otherwise returns false. *)
Definition FieldInfo_IsInt (f : FieldInfo) : bool := baseTypeNameIs f "int".

(** [IsString] returns true if FieldInfo is string, otherwise returns false. *)
Definition FieldInfo_IsString (f : FieldInfo) : bool := baseTypeNameIs f "string".

(** [IsFloat32] returns true if FieldInfo is float32, otherwise returns false. *)
Definition FieldInfo_IsFloat32 (f : FieldInfo) : bool := baseTypeNameIs f "float32".

(** [IsFloat64] returns true if FieldInfo is float64, otherwise returns false. *)
Definition FieldInfo_IsFloat64 (f : FieldInfo) : bool := baseTypeNameIs f "float64".

(** [IsNumber] returns true if FieldInfo is int or int64 or float32 or
    float64, otherwise returns false. *)
Definition FieldInfo_IsNumber (f : FieldInfo) : bool :=
  FieldInfo_IsInt f || FieldInfo_IsInt64 f || FieldInfo_IsFloat32 f
  || FieldInfo_IsFloat64 f.

(** [IsBool] returns true if FieldInfo is bool, otherwise returns false. *)
Definition FieldInfo_IsBool (f : FieldInfo) : bool := baseTypeNameIs f "bool".

(** [IsTime] returns true if FieldInfo is time.Time, otherwise returns false. *)
Definition FieldInfo_IsTime (f : FieldInfo) : bool := baseTypeNameIs f "time.Time".

(** ** Reference descriptions used by the properties *)

(** The type specs among the specs of a declaration, in order. *)
Definition typeSpecs (specs : list ast.Spec) : list ast.TypeSpec :=
  flat_map (fun spec => match spec with ast.TypeSpecS ts => [ts] | _ => [] end) specs.

(** One entry per named type of a general declaration headed by the
    keyword [type]; nothing for any other declaration. *)
Definition declaredTypes (file : FileInfo) (decl : ast.GenDecl) : TypeInfos :=
  if bool_decide (ast.GenDecl_Tok decl = token.TYPE)
  then map (fun ts => mkTypeInfo file decl ts None) (typeSpecs (ast.GenDecl_Specs decl))
  else [].

(** The entries that a top-level declaration contributes by itself. *)
Definition ownTypes (file : FileInfo) (d : ast.Decl) : TypeInfos :=
  match d with
  | ast.GenDeclD decl => declaredTypes file decl
  | _ => []
  end.

(** The top-level type declarations of a file, one entry per name, in
    textual order. *)
Definition topLevelTypes (file : FileInfo) : TypeInfos :=
  flat_map (ownTypes file) (ast.File_Decls file).

(** The files of a list that are not [nil], in order. *)
Definition loadedFiles (files : FileInfos) : list FileInfo :=
  flat_map (fun file => match file with Some f => [f] | None => [] end) files.

(** What the closure of [TypeInfos] gathers on the walk of a node that
    starts with the empty slice. *)
Definition gathered (file : FileInfo) (n : ast.Node) : TypeInfos :=
  ast.Inspect (inspectTypes file) n [].

(** A visitor that descends everywhere and notes every general
    declaration headed by [type]. *)
Definition noteTypeDecl (node : option ast.Node) (seen : list ast.GenDecl)
    : bool * list ast.GenDecl :=
  match node with
  | Some (ast.DeclNode (ast.GenDeclD decl)) =>
      (true, if bool_decide (ast.GenDecl_Tok decl = token.TYPE)
             then seen ++ [decl] else seen)
  | _ => (true, seen)
  end.

(** The type declarations at or below a node. *)
Definition typeDeclsIn (n : ast.Node) : list ast.GenDecl :=
  ast.Inspect noteTypeDecl n [].

(** The type declarations strictly below a top-level declaration: those
    local to function bodies and function literals. *)
Definition nestedTypeDecls (d : ast.Decl) : list ast.GenDecl :=
  flat_map typeDeclsIn (ast.children (ast.DeclNode d)).

Definition localTypeDecls (file : FileInfo) : list ast.GenDecl :=
  flat_map nestedTypeDecls (ast.File_Decls file).

(** The files that the loader hands to the parser: the names with the
    source extension, in order, each with the code found at the index of
    the name in the whole list of names. *)
Fixpoint sourceInputs (codes : list string) (idx : nat) (fileNames : list string)
    : list (string * option string) :=
  match fileNames with
  | [] => []
  | fileName :: rest =>
      if strings.HasSuffix fileName ".go"
      then (fileName, codes !! idx) :: sourceInputs codes (S idx) rest
      else sourceInputs codes (S idx) rest
  end.

(** Parsing those files one after the other; the first error ends it. *)
Fixpoint parseInputs `{Host} (inputs : list (string * option string))
    (files : FileInfos) : result FileInfos :=
  match inputs with
  | [] => Ok files
  | (fileName, code) :: rest =>
      match ParseFile fileName code with
      | Err err => Err ("parsing package: " +:+ fileName +:+ ": " +:+ err)
      | Ok parsedFile => parseInputs rest (files ++ [Some parsedFile])
      end
  end.

(** The parser returned [file] for the input: a name and, when there is
    one, its source text. *)
Definition parsedFrom `{Host} (input : string * option string) (file : ast.File)
    : Prop :=
  ParseFile input.1 input.2 = Ok file.

(** The walk enters the children of every node except a [type]
    declaration that has a type spec, for which the closure of
    [TypeInfos] answers [false]. *)
Definition entered (n : ast.Node) : Prop :=
  match n with
  | ast.DeclNode (ast.GenDeclD decl) =>
      ast.GenDecl_Tok decl <> token.TYPE \/ typeSpecs (ast.GenDecl_Specs decl) = []
  | _ => True
  end.

(** [reaches n m]: the walk started at [n] visits [m], going down only
    through nodes that it enters. *)
Inductive reaches : ast.Node -> ast.Node -> Prop :=
| reaches_here (n : ast.Node) : reaches n n
| reaches_below (n c m : ast.Node) :
    entered n -> c ∈ ast.children n -> reaches c m -> reaches n m.

(** An entry without its annotation. *)
Definition clearAnnotatedComment (t : TypeInfo) : TypeInfo :=
  mkTypeInfo (TypeInfo_FileInfo t) (TypeInfo_GenDecl t) (TypeInfo_TypeSpec t) None.

(** A declaration of the file is a [type] declaration with at least one
    type spec. *)
Definition declaresTypes (d : ast.Decl) : Prop :=
  exists decl,
    d = ast.GenDeclD decl /\ ast.GenDecl_Tok decl = token.TYPE
    /\ typeSpecs (ast.GenDecl_Specs decl) <> [].

(** The five shape predicates of a field, side by side. *)
Definition shapeFlags (f : FieldInfo) : bool * bool * bool * bool * bool :=
  (FieldInfo_IsPtr f, FieldInfo_IsArray f, FieldInfo_IsPtrArray f,
   FieldInfo_IsArrayPtr f, FieldInfo_IsPtrArrayPtr f).

(** The seven primitive-kind predicates of a field, and how many hold. *)
Definition kindFlags (f : FieldInfo) : list bool :=
  [FieldInfo_IsInt f; FieldInfo_IsInt64 f; FieldInfo_IsFloat32 f;
   FieldInfo_IsFloat64 f; FieldInfo_IsString f; FieldInfo_IsBool f;
   FieldInfo_IsTime f].

Definition trueCount (flags : list bool) : nat :=
  length (List.filter (fun b => b) flags).

(** The three tests of [FindImportSpecByIdent] on one import. *)
Definition aliasIs (imp : ast.ImportSpec) (packageIdent : string) : bool :=
  match ast.ImportSpec_Name imp with
  | Some name => String.eqb (ast.Ident_Name name) packageIdent
  | None => false
  end.

Definition pathEndsWith (imp : ast.ImportSpec) (packageIdent : string) : bool :=
  strings.HasSuffix (ast.BasicLit_Value (ast.ImportSpec_Path imp))
                    ("/" +:+ packageIdent +:+ dquote).

Definition pathIs (imp : ast.ImportSpec) (packageIdent : string) : bool :=
  String.eqb (ast.BasicLit_Value (ast.ImportSpec_Path imp))
             (dquote +:+ packageIdent +:+ dquote).

Definition importMatches (imp : ast.ImportSpec) (packageIdent : string) : bool :=
  aliasIs imp packageIdent || pathEndsWith imp packageIdent || pathIs imp packageIdent.

(** An import that is renamed to another identifier although its path
    passes test (b) or (c) for this one, as [import baz "x/foo"] for
    [foo]. *)
Definition renamedAway (imp : ast.ImportSpec) (packageIdent : string) : bool :=
  match ast.ImportSpec_Name imp with
  | Some name =>
      negb (String.eqb (ast.Ident_Name name) packageIdent)
      && (pathEndsWith imp packageIdent || pathIs imp packageIdent)
  | None => false
  end.

(** The lookup as the spec words it: first an import with the alias,
    failing that an import whose path ends in the identifier, failing
    that an import whose path is the identifier. *)
Definition findImportByPriority (imports : list ast.ImportSpec) (packageIdent : string)
    : option ast.ImportSpec :=
  match List.find (fun imp => aliasIs imp packageIdent) imports with
  | Some imp => Some imp
  | None =>
      match List.find (fun imp => pathEndsWith imp packageIdent) imports with
      | Some imp => Some imp
      | None => List.find (fun imp => pathIs imp packageIdent) imports
      end
  end.

(** An entry names a type spec of a declaration headed by [type]. *)
Definition namesTypeSpec (file : FileInfo) (t : TypeInfo) : Prop :=
  TypeInfo_FileInfo t = file
  /\ ast.GenDecl_Tok (TypeInfo_GenDecl t) = token.TYPE
  /\ ast.TypeSpecS (TypeInfo_TypeSpec t) ∈ ast.GenDecl_Specs (TypeInfo_GenDecl t)
  /\ AnnotatedComment t = None.

(** A reference to a named type: a name, or a package-qualified name. *)
Definition namedType (e : ast.Expr) : bool :=
  match e with
  | ast.IdentExpr _ => true
  | ast.SelectorExpr (ast.IdentExpr _) _ => true
  | _ => false
  end.

(** ** Sample inputs *)

Definition intType : ast.Expr := ast.IdentExpr (ast.mkIdent "int").
Definition stringType : ast.Expr := ast.IdentExpr (ast.mkIdent "string").

(** [type A int] *)
Definition declA : ast.GenDecl :=
  ast.mkGenDecl None token.TYPE
    [ast.TypeSpecS (ast.mkTypeSpec None (ast.mkIdent "A") intType None)].

(** [type T int] *)
Definition declT : ast.GenDecl :=
  ast.mkGenDecl None token.TYPE
    [ast.TypeSpecS (ast.mkTypeSpec None (ast.mkIdent "T") intType None)].

(** [package p; type A int; func f() { type T int }] *)
Definition localTypeFile : FileInfo :=
  ast.mkFile None (ast.mkIdent "p")
    [ast.GenDeclD declA;
     ast.FuncDecl None None (ast.mkIdent "f") (Some []) None
                  (Some [ast.DeclStmt declT])]
    [].

Definition localTypePkg : PackageInfo := mkPackageInfo "." [Some localTypeFile] None.

(** The fields of [struct { X int; Y *int; Tags []string }]. *)
Definition fieldX : FieldInfo := ast.mkField None [ast.mkIdent "X"] intType None None.
Definition fieldY : FieldInfo :=
  ast.mkField None [ast.mkIdent "Y"] (ast.StarExpr intType) None None.
Definition fieldTags : FieldInfo :=
  ast.mkField None [ast.mkIdent "Tags"] (ast.ArrayType None stringType) None None.

Definition specPoint : ast.TypeSpec :=
  ast.mkTypeSpec None (ast.mkIdent "Point")
    (ast.StructType [fieldX; fieldY; fieldTags]) None.

(** [type Point struct { X int; Y *int; Tags []string }] *)
Definition declPoint : ast.GenDecl :=
  ast.mkGenDecl None token.TYPE [ast.TypeSpecS specPoint].

Definition pointSource : string :=
  "package geom; type Point struct { X int; Y *int; Tags []string }".

Definition pointFile : FileInfo :=
  ast.mkFile None (ast.mkIdent "geom") [ast.GenDeclD declPoint] [].

Definition pointPkg : PackageInfo :=
  mkPackageInfo "." [Some pointFile] (Some (types.mkPackage "." "geom")).

(** Fields of type [*Point], [[]Point], [*[]Point], [[]*Point] and
    [*[]*Point]. *)
Definition pointType : ast.Expr := ast.IdentExpr (ast.mkIdent "Point").
Definition fieldPtr : FieldInfo :=
  ast.mkField None [ast.mkIdent "Origin"] (ast.StarExpr pointType) None None.
Definition fieldArray : FieldInfo :=
  ast.mkField None [ast.mkIdent "Corners"] (ast.ArrayType None pointType) None None.
Definition fieldPtrArray : FieldInfo :=
  ast.mkField None [ast.mkIdent "Shared"]
    (ast.StarExpr (ast.ArrayType None pointType)) None None.
Definition fieldArrayPtr : FieldInfo :=
  ast.mkField None [ast.mkIdent "Path"]
    (ast.ArrayType None (ast.StarExpr pointType)) None None.
Definition fieldPtrArrayPtr : FieldInfo :=
  ast.mkField None [ast.mkIdent "Grid"]
    (ast.StarExpr (ast.ArrayType None (ast.StarExpr pointType))) None None.

(** [import "x/foo"] and [import foo "bar"]. *)
Definition importPathFoo : ast.ImportSpec :=
  ast.mkImportSpec None None (ast.mkBasicLit (dquote +:+ "x/foo" +:+ dquote)) None.
Definition importAliasFoo : ast.ImportSpec :=
  ast.mkImportSpec None (Some (ast.mkIdent "foo"))
    (ast.mkBasicLit (dquote +:+ "bar" +:+ dquote)) None.

(** [package p; import "x/foo"; import foo "bar"], which is a valid
    program when the package at ["x/foo"] is not itself named [foo]. *)
Definition twoImportsFile : FileInfo :=
  ast.mkFile None (ast.mkIdent "p")
    [ast.GenDeclD (ast.mkGenDecl None token.IMPORT [ast.ImportSpecS importPathFoo]);
     ast.GenDeclD (ast.mkGenDecl None token.IMPORT [ast.ImportSpecS importAliasFoo])]
    [importPathFoo; importAliasFoo].

(** [package p; import baz "x/foo"; import foo "bar"] *)
Definition importBazFoo : ast.ImportSpec :=
  ast.mkImportSpec None (Some (ast.mkIdent "baz"))
    (ast.mkBasicLit (dquote +:+ "x/foo" +:+ dquote)) None.
Definition renamedImportFile : FileInfo :=
  ast.mkFile None (ast.mkIdent "p")
    [ast.GenDeclD (ast.mkGenDecl None token.IMPORT [ast.ImportSpecS importBazFoo]);
     ast.GenDeclD (ast.mkGenDecl None token.IMPORT [ast.ImportSpecS importAliasFoo])]
    [importBazFoo; importAliasFoo].

(** [import foo `bar`] and [import `x/foo`]: import paths written as raw
    string literals, whose [Path.Value] keeps the back quotes. *)
Definition importRawAliasFoo : ast.ImportSpec :=
  ast.mkImportSpec None (Some (ast.mkIdent "foo")) (ast.mkBasicLit "`bar`") None.
Definition importRawPathFoo : ast.ImportSpec :=
  ast.mkImportSpec None None (ast.mkBasicLit "`x/foo`") None.
Definition rawImportsFile : FileInfo :=
  ast.mkFile None (ast.mkIdent "p")
    [ast.GenDeclD (ast.mkGenDecl None token.IMPORT
                     [ast.ImportSpecS importRawPathFoo; ast.ImportSpecS importRawAliasFoo])]
    [importRawPathFoo; importRawAliasFoo].

(** The same imports in the other order. *)
Definition aliasFirstFile : FileInfo :=
  ast.mkFile None (ast.mkIdent "p")
    [ast.GenDeclD (ast.mkGenDecl None token.IMPORT [ast.ImportSpecS importAliasFoo]);
     ast.GenDeclD (ast.mkGenDecl None token.IMPORT [ast.ImportSpecS importPathFoo])]
    [importAliasFoo; importPathFoo].

(** A documented declaration group,
    [// Shapes.] [// +gen] [type ( Circle int; // Edge of a shape.  Edge int )],
    and a declaration without documentation, [type Bare int]. *)
Definition docShapes : ast.CommentGroup :=
  ast.mkCommentGroup [ast.mkComment "// Shapes."; ast.mkComment "// +gen"].
Definition docEdge : ast.CommentGroup :=
  ast.mkCommentGroup [ast.mkComment "// Edge of a shape."].
Definition specCircle : ast.TypeSpec :=
  ast.mkTypeSpec None (ast.mkIdent "Circle") intType None.
Definition specEdge : ast.TypeSpec :=
  ast.mkTypeSpec (Some docEdge) (ast.mkIdent "Edge") intType None.
Definition declShapes : ast.GenDecl :=
  ast.mkGenDecl (Some docShapes) token.TYPE
    [ast.TypeSpecS specCircle; ast.TypeSpecS specEdge].
Definition specBare : ast.TypeSpec :=
  ast.mkTypeSpec None (ast.mkIdent "Bare") intType None.
Definition declBare : ast.GenDecl :=
  ast.mkGenDecl None token.TYPE [ast.TypeSpecS specBare].
Definition shapesFile : FileInfo :=
  ast.mkFile None (ast.mkIdent "shapes")
    [ast.GenDeclD declShapes; ast.GenDeclD declBare] [].
Definition shapesPkg : PackageInfo := mkPackageInfo "." [Some shapesFile] None.

(** A matching rule for the samples: the line is [// +] followed by the
    tag. *)
Definition plusTag (text tag : string) : bool := String.eqb text ("// +" +:+ tag).

(** [package p; type A [len(func() { type T int })]int]: a type
    declaration whose array length holds a function literal with a local
    type. *)
Definition specArrayA : ast.TypeSpec :=
  ast.mkTypeSpec None (ast.mkIdent "A")
    (ast.ArrayType
       (Some (ast.CallExpr (ast.IdentExpr (ast.mkIdent "len"))
                [ast.FuncLit (Some []) None [ast.DeclStmt declT]]))
       intType)
    None.
Definition declArrayA : ast.GenDecl :=
  ast.mkGenDecl None token.TYPE [ast.TypeSpecS specArrayA].
Definition typeInTypeFile : FileInfo :=
  ast.mkFile None (ast.mkIdent "p") [ast.GenDeclD declArrayA] [].

(** A field of type [map[string]int], which has no base type name. *)
Definition fieldMap : FieldInfo :=
  ast.mkField None [ast.mkIdent "Index"] (ast.MapType stringType intType) None None.

(** A host that knows one source text, [pointSource], and one directory,
    ["asm"], whose build metadata lists an assembly file and no Go file
    (a directory that holds test files besides). *)
Definition pointHost : Host :=
  mkHost
    (fun directory =>
       if String.eqb directory "asm"
       then Ok (build.mkPackage [] [] ["add_amd64.s"])
       else Err ("no buildable Go source files in " +:+ directory))
    (fun fileName code =>
       match code with
       | Some text =>
           if String.eqb text pointSource then Ok pointFile
           else Err "expected 'package', found 'EOF'"
       | None => Err ("open " +:+ fileName +:+ ": no such file or directory")
       end)
    (fun path files => (Some (types.mkPackage path "geom"), None))
    (fun directory names => map (fun name => directory +:+ "/" +:+ name) names).

(** A host with files on disk: the directory ["geom"] holds [point.go],
    [shapes.go] and an assembly file; [broken.go] does not parse. *)
Definition diskHost : Host :=
  mkHost
    (fun directory =>
       if String.eqb directory "geom"
       then Ok (build.mkPackage ["point.go"; "shapes.go"] [] ["add_amd64.s"])
       else Err ("no buildable Go source files in " +:+ directory))
    (fun fileName code =>
       match code with
       | Some text =>
           if String.eqb text pointSource then Ok pointFile
           else Err "expected 'package', found 'EOF'"
       | None =>
           if String.eqb fileName "geom/point.go" then Ok pointFile
           else if String.eqb fileName "geom/shapes.go" then Ok shapesFile
           else if String.eqb fileName "geom/broken.go"
                then Err "3:1: expected declaration, found 'IDENT' tpye"
                else Err ("open " +:+ fileName +:+ ": no such file or directory")
       end)
    (fun path files => (Some (types.mkPackage path "geom"), None))
    (fun directory names => map (fun name => directory +:+ "/" +:+ name) names).

(** The host [diskHost] with a parser that refuses, with an error of its
    own, every name without the [.go] extension. *)
Definition pickyHost : Host :=
  mkHost (@ImportDir diskHost)
    (fun fileName code =>
       if strings.HasSuffix fileName ".go" then @ParseFile diskHost fileName code
       else Err "not a Go source file")
    (@Check diskHost) (@pathJoinAll diskHost).

(** The same host with a type checker that reports an unresolved import
    and returns no package. *)
Definition brokenImportHost : Host :=
  mkHost (@ImportDir pointHost) (@ParseFile pointHost)
    (fun path files => (None, Some "could not import missing/dep"))
    (@pathJoinAll pointHost).

(** * Properties *)

(** ** Induction over syntax trees along [ast.children] *)

Section NodeInduction.
Import ast.

Variable P : Node -> Prop.
Hypothesis step : forall n, Forall P (children n) -> P n.

Definition Forall_map_nodes {A : Type} (mk : A -> Node)
    (IH : forall a, P (mk a)) : forall l, Forall P (map mk l) :=
  fix go (l : list A) : Forall P (map mk l) :=
    match l as l0 return Forall P (map mk l0) with
    | [] => Stdlib.Lists.List.Forall_nil P
    | x :: l' => @Stdlib.Lists.List.Forall_cons _ P (mk x) _ (IH x) (go l')
    end.

Definition Forall_optNodes {A : Type} (mk : A -> Node)
    (IH : forall a, P (mk a)) (o : option A) : Forall P (optNodes mk o) :=
  match o as o0 return Forall P (optNodes mk o0) with
  | Some x =>
      @Stdlib.Lists.List.Forall_cons _ P (mk x) _ (IH x) (Stdlib.Lists.List.Forall_nil P)
  | None => Stdlib.Lists.List.Forall_nil P
  end.

Definition Forall_app_nodes (l1 l2 : list Node)
    (H1 : Forall P l1) (H2 : Forall P l2) : Forall P (l1 ++ l2) :=
  proj2 (Forall_app P l1 l2) (conj H1 H2).

Lemma P_CommentGroupNode g : P (CommentGroupNode g).
Proof.
  apply step; simpl. apply Forall_map_nodes. intros c. apply step. constructor.
Qed.

Lemma P_IdentNode i : P (IdentNode i).
Proof. apply step. constructor. Qed.

Lemma P_BasicLitNode lit : P (BasicLitNode lit).
Proof. apply step. constructor. Qed.

(** Splits the goal along the shape of a list of children; goals about
    a single node are left to [solve_node]. *)
Ltac split_children :=
  repeat first
    [ apply Stdlib.Lists.List.Forall_nil
    | apply Stdlib.Lists.List.Forall_cons
    | apply Forall_app_nodes
    | apply Forall_map_nodes; intros ?
    | apply Forall_optNodes; intros ? ].

(** A node that is a variable is a proper part of the node under
    induction; any other node is a parent whose parts come next. *)
Ltac solve_node :=
  match goal with
  | |- P (CommentGroupNode _) => apply P_CommentGroupNode
  | |- P (IdentNode _) => apply P_IdentNode
  | |- P (ExprNode (IdentExpr _)) => apply P_IdentNode
  | |- P (BasicLitNode _) => apply P_BasicLitNode
  | |- P (ExprNode (BasicLitExpr _)) => apply P_BasicLitNode
  | IH : forall e, P (ExprNode e) |- P (ExprNode ?x) => is_var x; apply IH
  | IH : forall s, P (StmtNode s) |- P (StmtNode ?x) => is_var x; apply IH
  | IH : forall f, P (FieldNode f) |- P (FieldNode ?x) => is_var x; apply IH
  | IH : forall s, P (SpecNode s) |- P (SpecNode ?x) => is_var x; apply IH
  | IH : forall d, P (DeclNode (GenDeclD d)) |- P (DeclNode (GenDeclD ?x)) =>
      is_var x; apply IH
  | |- P _ => apply step; simpl; split_children
  end.

Fixpoint P_ExprNode (e : Expr) {struct e} : P (ExprNode e)
with P_FieldNode (f : Field) {struct f} : P (FieldNode f)
with P_StmtNode (s : Stmt) {struct s} : P (StmtNode s)
with P_GenDeclNode (d : GenDecl) {struct d} : P (DeclNode (GenDeclD d))
with P_SpecNode (s : Spec) {struct s} : P (SpecNode s).
Proof.
  - destruct e; apply step; simpl; split_children; repeat solve_node.
  - destruct f; apply step; simpl; split_children; repeat solve_node.
  - destruct s; apply step; simpl; split_children; repeat solve_node.
  - destruct d; apply step; simpl; split_children; repeat solve_node.
  - destruct s as [i| |[]]; apply step; simpl; split_children; repeat solve_node.
Qed.

Lemma P_DeclNode d : P (DeclNode d).
Proof.
  pose proof P_ExprNode. pose proof P_FieldNode. pose proof P_StmtNode.
  destruct d as [|g|]; [apply step; constructor | apply P_GenDeclNode |].
  apply step; simpl; split_children; repeat solve_node.
Qed.

(** Every node has [P] as soon as [P] passes from the children of a
    node to the node. *)
Lemma Node_children_ind : forall n, P n.
Proof.
  intros [c|g|f|l|e|s|s|d|f].
  - apply step. constructor.
  - apply P_CommentGroupNode.
  - apply P_FieldNode.
  - apply step; simpl. apply Forall_map_nodes, P_FieldNode.
  - apply P_ExprNode.
  - apply P_StmtNode.
  - apply P_SpecNode.
  - apply P_DeclNode.
  - apply step; simpl. apply Forall_app_nodes.
    + apply Forall_optNodes, P_CommentGroupNode.
    + constructor; [apply P_IdentNode|]. apply Forall_map_nodes, P_DeclNode.
Qed.

End NodeInduction.

(** ** [ast.Walk] in terms of [ast.children] *)

Section WalkFacts.
Import ast.
Context {St : Type}.
Variable v : option Node -> St -> bool * St.

Lemma walkList_app {A : Type} (W : A -> St -> St) l1 l2 s :
  walkList W (l1 ++ l2) s = walkList W l2 (walkList W l1 s).
Proof. revert s; induction l1 as [|x l1 IH]; intros s; simpl; [done|]. apply IH. Qed.

Lemma walkList_ext {A : Type} (W1 W2 : A -> St -> St) l s :
  (forall x s', W1 x s' = W2 x s') -> walkList W1 l s = walkList W2 l s.
Proof.
  intros HW; revert s; induction l as [|x l IH]; intros s; simpl; [done|].
  rewrite HW. apply IH.
Qed.

Lemma walkList_map {A B : Type} (W : B -> St -> St) (g : A -> B) l s :
  walkList W (map g l) s = walkList (fun a => W (g a)) l s.
Proof. revert s; induction l as [|x l IH]; intros s; simpl; [done|]. apply IH. Qed.

Lemma walkList_optNodes {A : Type} (W : Node -> St -> St) (mk : A -> Node) o s :
  walkList W (optNodes mk o) s = walkOpt (fun a => W (mk a)) o s.
Proof. by destruct o. Qed.

Lemma visit_ext n (w1 w2 : St -> St) s :
  (forall s', w1 s' = w2 s') -> visit v n w1 s = visit v n w2 s.
Proof. intros Hw; unfold visit. destruct (v (Some n) s) as [[] s1]; [|done]. by rewrite Hw. Qed.

Ltac walk_children :=
  intros; simpl;
  repeat (progress (rewrite ?walkList_app, ?walkList_map, ?walkList_optNodes; simpl));
  unfold andThen, walkOpt; simpl;
  repeat match goal with |- context [match ?o with Some _ => _ | None => _ end] =>
    destruct o end;
  reflexivity.

(** The walk of a node visits the node and then, when the visitor asks
    for it, walks the children from left to right. *)
Lemma Walk_children n s :
  Walk v n s = visit v n (walkList (Walk v) (children n)) s.
Proof.
  destruct n as [c|g|f|l|e|st|sp|d|f].
  - reflexivity.
  - apply visit_ext; walk_children.
  - destruct f; apply visit_ext; walk_children.
  - apply visit_ext; walk_children.
  - destruct e; apply visit_ext; walk_children.
  - destruct st; apply visit_ext; walk_children.
  - destruct sp as [i| |[]]; apply visit_ext; walk_children.
  - destruct d as [|[]|]; apply visit_ext; walk_children.
  - apply visit_ext; walk_children.
Qed.

End WalkFacts.

(** ** Visitors that only append to the slice they capture *)

Section Appending.
Import ast.
Context {A : Type}.
Variable v : option Node -> list A -> bool * list A.
Hypothesis v_appends : forall n s, v n s = (fst (v n []), s ++ snd (v n [])).

Lemma walkList_appending l s :
  Forall (fun n => forall s', Walk v n s' = s' ++ Walk v n []) l ->
  walkList (Walk v) l s = s ++ flat_map (fun n => Walk v n []) l.
Proof.
  intros Hl; revert s; induction Hl as [|n l Hn _ IH]; intros s; simpl.
  - by rewrite app_nil_r.
  - rewrite IH, Hn. by rewrite <- app_assoc.
Qed.

Lemma Walk_appending n : forall s, Walk v n s = s ++ Walk v n [].
Proof.
  induction n as [n IH] using Node_children_ind; intros s.
  rewrite !Walk_children; unfold visit.
  rewrite (v_appends (Some n) s).
  destruct (v (Some n) []) as [[] own]; simpl; [|done].
  rewrite !(walkList_appending _ _ IH).
  rewrite (v_appends None), (v_appends None (own ++ _)); simpl.
  by rewrite <- !app_assoc.
Qed.

Lemma walkList_collect l s :
  walkList (Walk v) l s = s ++ flat_map (fun n => Walk v n []) l.
Proof.
  apply walkList_appending, Forall_forall. intros n _. apply Walk_appending.
Qed.

(** What a walk gathers: the visitor's share for the node, then, when
    the visitor descends, the shares of the children in order and the
    share of the closing call on [nil]. *)
Lemma Walk_nil n :
  Walk v n [] =
    snd (v (Some n) [])
    ++ (if fst (v (Some n) [])
        then flat_map (fun c => Walk v c []) (children n) ++ snd (v None [])
        else []).
Proof.
  rewrite Walk_children; unfold visit.
  destruct (v (Some n) []) as [[] own]; simpl; [|by rewrite app_nil_r].
  rewrite walkList_collect, (v_appends None); simpl.
  by rewrite <- !app_assoc.
Qed.

End Appending.

(** ** The closure of [TypeInfos] *)

Section InspectTypes.
Import ast.
Variable file : FileInfo.

Lemma collectSpecs_spec decl specs types found :
  collectSpecs file decl specs types found =
    (types ++ map (fun ts => mkTypeInfo file decl ts None) (typeSpecs specs),
     found || negb (bool_decide (typeSpecs specs = []))).
Proof.
  revert types found; induction specs as [|spec rest IH]; intros types found; simpl.
  - by rewrite app_nil_r, orb_false_r.
  - destruct spec as [i| |ts]; rewrite IH; simpl; try done.
    rewrite <- app_assoc; simpl. by rewrite orb_true_r.
Qed.

(** The closure's share for one node and whether it descends. *)
Lemma inspectTypes_node n types :
  inspectTypes file (Some n) types =
    match n with
    | DeclNode (GenDeclD decl) =>
        (bool_decide (declaredTypes file decl = []), types ++ declaredTypes file decl)
    | _ => (true, types)
    end.
Proof.
  destruct n as [| | | | | | |[|decl|]|]; try reflexivity.
  unfold inspectTypes, declaredTypes.
  destruct (decide (GenDecl_Tok decl = token.TYPE)) as [Htok|Htok].
  - rewrite (bool_decide_eq_false_2 (GenDecl_Tok decl ≠ token.TYPE)) by tauto.
    rewrite (bool_decide_eq_true_2 _ Htok), collectSpecs_spec; simpl.
    f_equal. destruct (typeSpecs (GenDecl_Specs decl)); reflexivity.
  - rewrite (bool_decide_eq_true_2 _ Htok), (bool_decide_eq_false_2 _ Htok).
    by rewrite app_nil_r.
Qed.

Lemma inspectTypes_appends n s :
  inspectTypes file n s =
    (fst (inspectTypes file n []), s ++ snd (inspectTypes file n [])).
Proof.
  destruct n as [n|]; [|by simpl; rewrite app_nil_r].
  rewrite !inspectTypes_node.
  destruct n as [| | | | | | |[|decl|]|]; simpl; by rewrite ?app_nil_r.
Qed.

Lemma noteTypeDecl_appends n s :
  noteTypeDecl n s = (fst (noteTypeDecl n []), s ++ snd (noteTypeDecl n [])).
Proof.
  destruct n as [[| | | | | | |[|decl|]|]|]; simpl; rewrite ?app_nil_r; try done.
  case_bool_decide; by rewrite ?app_nil_r.
Qed.

Lemma Inspect_inspectTypes n s :
  Inspect (inspectTypes file) n s = s ++ gathered file n.
Proof. apply Walk_appending, inspectTypes_appends. Qed.

Lemma gathered_children n :
  gathered file n =
    match n with
    | DeclNode (GenDeclD decl) =>
        declaredTypes file decl
        ++ (if bool_decide (declaredTypes file decl = [])
            then flat_map (gathered file) (children n) else [])
    | _ => flat_map (gathered file) (children n)
    end.
Proof.
  unfold gathered, Inspect.
  rewrite (Walk_nil _ inspectTypes_appends), inspectTypes_node.
  destruct n as [| | | | | | |[|decl|]|]; simpl; rewrite ?app_nil_r; done.
Qed.

Lemma typeDeclsIn_children n :
  typeDeclsIn n = snd (noteTypeDecl (Some n) []) ++ flat_map typeDeclsIn (children n).
Proof.
  unfold typeDeclsIn, Inspect. rewrite (Walk_nil _ noteTypeDecl_appends).
  assert (fst (noteTypeDecl (Some n) []) = true) as ->
    by (by destruct n as [| | | | | | |[|decl|]|]).
  simpl. by rewrite app_nil_r.
Qed.

Lemma flat_map_nil_Forall {X Y : Type} (g : X -> list Y) l :
  flat_map g l = [] -> Forall (fun x => g x = []) l.
Proof.
  induction l as [|x l IH]; simpl; intros Hnil; [constructor|].
  apply app_eq_nil in Hnil as [Hx Hl]. constructor; auto.
Qed.

Lemma Forall_flat_map_nil {X Y : Type} (g : X -> list Y) l :
  Forall (fun x => g x = []) l -> flat_map g l = [].
Proof. induction 1 as [|x l Hx _ IH]; simpl; [done|]. by rewrite Hx, IH. Qed.

(** A subtree without type declarations adds nothing. *)
Lemma gathered_free n : typeDeclsIn n = [] -> gathered file n = [].
Proof.
  induction n as [n IH] using Node_children_ind.
  rewrite typeDeclsIn_children, gathered_children.
  intros Hnil; apply app_eq_nil in Hnil as [Hown Hch].
  assert (flat_map (gathered file) (children n) = []) as Hsub.
  { apply Forall_flat_map_nil. apply flat_map_nil_Forall in Hch.
    rewrite Forall_forall in IH, Hch |- *. auto. }
  rewrite Hsub.
  destruct n as [| | | | | | |[|decl|]|]; try done.
  unfold declaredTypes. simpl in Hown.
  case_bool_decide; [by destruct (app_cons_not_nil [] [] decl)|].
  by rewrite bool_decide_eq_true_2.
Qed.

End InspectTypes.

(** ** [TypeInfos] file by file *)

Section Enumeration.
Import ast.

Lemma typeDeclsIn_CommentGroupNode g : typeDeclsIn (CommentGroupNode g) = [].
Proof.
  rewrite typeDeclsIn_children; simpl. apply Forall_flat_map_nil.
  apply Forall_forall. intros n Hn. apply list_elem_of_In, in_map_iff in Hn as (c & <- & _).
  by rewrite typeDeclsIn_children.
Qed.

Lemma typeDeclsIn_IdentNode i : typeDeclsIn (IdentNode i) = [].
Proof. by rewrite typeDeclsIn_children. Qed.

Lemma flat_map_map {X Y Z : Type} (g : Y -> list Z) (h : X -> Y) l :
  flat_map g (map h l) = flat_map (fun x => g (h x)) l.
Proof. induction l as [|x l IH]; simpl; [done|]. by rewrite IH. Qed.

Lemma gathered_FileNode file f :
  gathered file (FileNode f) =
    flat_map (fun d => gathered file (DeclNode d)) (File_Decls f).
Proof.
  rewrite gathered_children; cbn [children].
  rewrite !flat_map_app, flat_map_map; cbn [flat_map].
  rewrite (gathered_free file _ (typeDeclsIn_IdentNode (File_Name f))).
  destruct (File_Doc f) as [g|]; cbn [optNodes flat_map app]; [|done].
  by rewrite (gathered_free file _ (typeDeclsIn_CommentGroupNode g)).
Qed.

Lemma gathered_DeclNode file d :
  gathered file (DeclNode d) =
    ownTypes file d
    ++ (if bool_decide (ownTypes file d = [])
        then flat_map (gathered file) (children (DeclNode d)) else []).
Proof. rewrite gathered_children. by destruct d as [|decl|]. Qed.

Lemma gathered_DeclNode_sublist file d :
  ownTypes file d `sublist_of` gathered file (DeclNode d).
Proof. rewrite gathered_DeclNode. apply sublist_inserts_r. reflexivity. Qed.

Lemma gathered_DeclNode_exact file d :
  nestedTypeDecls d = [] -> gathered file (DeclNode d) = ownTypes file d.
Proof.
  intros Hfree. rewrite gathered_DeclNode.
  rewrite (Forall_flat_map_nil (gathered file)); [by case_bool_decide; rewrite app_nil_r|].
  apply flat_map_nil_Forall in Hfree. eapply Forall_impl; [exact Hfree|].
  intros n. apply gathered_free.
Qed.

Lemma flat_map_sublist {X Y : Type} (g1 g2 : X -> list Y) l :
  (forall x, g1 x `sublist_of` g2 x) -> flat_map g1 l `sublist_of` flat_map g2 l.
Proof.
  intros Hg; induction l as [|x l IH]; simpl; [reflexivity|]. by apply sublist_app.
Qed.

Lemma topLevelTypes_ownTypes file :
  topLevelTypes file = flat_map (ownTypes file) (File_Decls file).
Proof. reflexivity. Qed.

Lemma TypeInfos_fold files types :
  fold_left
    (fun types file =>
       match file with
       | None => types
       | Some file => Inspect (inspectTypes file) (FileNode file) types
       end) files types
  = types ++ flat_map (fun f => gathered f (FileNode f)) (loadedFiles files).
Proof.
  revert types; induction files as [|[f|] files IH]; intros types;
    unfold loadedFiles; cbn [fold_left flat_map app].
  - by rewrite app_nil_r.
  - fold (loadedFiles files). rewrite IH, Inspect_inspectTypes.
    by rewrite <- app_assoc.
  - apply IH.
Qed.

(** [TypeInfos] is the concatenation, over the files that are not [nil]
    and in their order, of what the walk of each file gathers. *)
Lemma TypeInfos_gathered pkg :
  PackageInfo_TypeInfos pkg =
    flat_map (fun f => gathered f (FileNode f)) (loadedFiles (Files pkg)).
Proof. unfold PackageInfo_TypeInfos. by rewrite TypeInfos_fold. Qed.

Lemma TypeInfos_topLevel_sublist pkg :
  flat_map topLevelTypes (loadedFiles (Files pkg))
    `sublist_of` PackageInfo_TypeInfos pkg.
Proof.
  rewrite TypeInfos_gathered. apply flat_map_sublist. intros f.
  rewrite gathered_FileNode, topLevelTypes_ownTypes.
  apply flat_map_sublist, gathered_DeclNode_sublist.
Qed.

Lemma flat_map_ext_Forall {X Y : Type} (g1 g2 : X -> list Y) l :
  Forall (fun x => g1 x = g2 x) l -> flat_map g1 l = flat_map g2 l.
Proof. induction 1 as [|x l Hx _ IH]; cbn [flat_map]; [done|]. by rewrite Hx, IH. Qed.

Lemma gathered_FileNode_exact f :
  localTypeDecls f = [] -> gathered f (FileNode f) = topLevelTypes f.
Proof.
  intros Hfree. rewrite gathered_FileNode, topLevelTypes_ownTypes.
  apply flat_map_ext_Forall. apply flat_map_nil_Forall in Hfree.
  eapply Forall_impl; [exact Hfree|]. intros d. apply gathered_DeclNode_exact.
Qed.

Lemma TypeInfos_topLevel_exact pkg :
  Forall (fun f => localTypeDecls f = []) (loadedFiles (Files pkg)) ->
  PackageInfo_TypeInfos pkg = flat_map topLevelTypes (loadedFiles (Files pkg)).
Proof.
  intros Hfree. rewrite TypeInfos_gathered. apply flat_map_ext_Forall.
  eapply Forall_impl; [exact Hfree|]. intros f. apply gathered_FileNode_exact.
Qed.

End Enumeration.

(** ** What [TypeInfos] returns *)

Section Entries.
Import ast.

Lemma typeSpecs_elem ts specs : ts ∈ typeSpecs specs -> TypeSpecS ts ∈ specs.
Proof.
  induction specs as [|spec specs IH]; simpl; [by intros ?%elem_of_nil|].
  rewrite elem_of_app. intros [Hin|Hin]; [|right; auto].
  destruct spec; try (by apply elem_of_nil in Hin).
  apply list_elem_of_singleton in Hin as ->. left.
Qed.

Lemma declaredTypes_entries file decl t :
  t ∈ declaredTypes file decl -> namesTypeSpec file t.
Proof.
  unfold declaredTypes. case_bool_decide as Htok; [|by intros ?%elem_of_nil].
  intros Hin. apply list_elem_of_In, in_map_iff in Hin as (ts & <- & Hts).
  repeat split; simpl; try done. by apply typeSpecs_elem, list_elem_of_In.
Qed.

Lemma gathered_entries file n t : t ∈ gathered file n -> namesTypeSpec file t.
Proof.
  revert t. induction n as [n IH] using Node_children_ind. intros t.
  assert (t ∈ flat_map (gathered file) (children n) -> namesTypeSpec file t) as Hsub.
  { intros Hin. apply list_elem_of_In, in_flat_map in Hin as (c & Hc & Hin).
    rewrite Forall_forall in IH. apply (IH c); by apply list_elem_of_In. }
  rewrite gathered_children.
  destruct n as [| | | | | | |[|decl|]|]; try exact Hsub.
  rewrite elem_of_app. intros [Hin|Hin]; [by eapply declaredTypes_entries|].
  case_bool_decide; [auto|by apply elem_of_nil in Hin].
Qed.

Lemma TypeInfos_entries pkg t :
  t ∈ PackageInfo_TypeInfos pkg ->
  Some (TypeInfo_FileInfo t) ∈ Files pkg /\ namesTypeSpec (TypeInfo_FileInfo t) t.
Proof.
  rewrite TypeInfos_gathered. intros Hin.
  apply list_elem_of_In, in_flat_map in Hin as (f & Hf & Hin).
  apply list_elem_of_In, gathered_entries in Hin. pose proof Hin as (<- & _).
  split; [|done]. unfold loadedFiles in Hf.
  apply in_flat_map in Hf as ([f'|] & Hf' & Hf); simpl in Hf; [|done].
  destruct Hf as [->|[]]. by apply list_elem_of_In.
Qed.

End Entries.

(** The local type of the sample file is what [localTypeDecls] reports,
    and the file of the [Point] scenario has none. *)
Lemma localTypeDecls_samples :
  localTypeDecls localTypeFile = [declT] /\ localTypeDecls pointFile = [].
Proof. split; reflexivity. Qed.

Section Reached.
Import ast.

Lemma declaredTypes_nil_entered file decl :
  declaredTypes file decl = [] <-> entered (DeclNode (GenDeclD decl)).
Proof.
  unfold declaredTypes; simpl. case_bool_decide as Htok.
  - destruct (typeSpecs (GenDecl_Specs decl)); simpl; split; try done.
    + by right.
    + by intros [|].
  - split; [by left|done].
Qed.

Lemma gathered_entered file n :
  entered n ->
  gathered file n = flat_map (gathered file) (children n).
Proof.
  intros Hn. rewrite gathered_children.
  destruct n as [| | | | | | |[|decl|]|]; try done.
  apply declaredTypes_nil_entered with (file := file) in Hn. by rewrite Hn.
Qed.

(** The entries gathered below a node are the named types of the [type]
    declarations that the walk reaches from it. *)
Lemma gathered_reaches file n t :
  t ∈ gathered file n
  <-> exists decl, reaches n (DeclNode (GenDeclD decl)) /\ t ∈ declaredTypes file decl.
Proof.
  split.
  - revert t. induction n as [n IH] using Node_children_ind. intros t.
    assert (entered n -> t ∈ flat_map (gathered file) (children n) ->
            exists decl, reaches n (DeclNode (GenDeclD decl))
                         /\ t ∈ declaredTypes file decl) as Hsub.
    { intros Hn Hin. apply list_elem_of_In, in_flat_map in Hin as (c & Hc & Hin).
      apply list_elem_of_In in Hc, Hin. rewrite Forall_forall in IH.
      destruct (IH c Hc t Hin) as (decl & Hreach & Ht).
      exists decl. split; [|done]. by apply reaches_below with c. }
    rewrite gathered_children.
    destruct n as [| | | | | | |[|decl|]|]; try (by apply Hsub).
    rewrite elem_of_app. intros [Hin|Hin].
    + exists decl. split; [constructor|done].
    + case_bool_decide as Hnil; [|by apply elem_of_nil in Hin].
      apply Hsub; [|done]. by apply declaredTypes_nil_entered in Hnil.
  - intros (decl & Hreach & Ht).
    remember (DeclNode (GenDeclD decl)) as m eqn:Hm.
    induction Hreach as [n|n c m Hn Hc _ IH]; subst.
    + rewrite gathered_children, elem_of_app. by left.
    + rewrite (gathered_entered _ _ Hn).
      apply list_elem_of_In, in_flat_map. exists c.
      split; apply list_elem_of_In; [done|]. by apply IH.
Qed.

Lemma loadedFiles_elem files f : f ∈ loadedFiles files <-> Some f ∈ files.
Proof.
  unfold loadedFiles. rewrite list_elem_of_In, in_flat_map. split.
  - intros ([f'|] & Hin & Hf); simpl in Hf; [|done].
    destruct Hf as [->|[]]. by apply list_elem_of_In.
  - intros Hin. exists (Some f). split; [by apply list_elem_of_In|by left].
Qed.

Lemma TypeInfos_reaches pkg t :
  t ∈ PackageInfo_TypeInfos pkg
  <-> exists file decl,
        Some file ∈ Files pkg
        /\ reaches (FileNode file) (DeclNode (GenDeclD decl))
        /\ t ∈ declaredTypes file decl.
Proof.
  rewrite TypeInfos_gathered, list_elem_of_In, in_flat_map. split.
  - intros (file & Hfile & Hin).
    apply list_elem_of_In, gathered_reaches in Hin as (decl & Hreach & Ht).
    exists file, decl. split; [|done]. by apply loadedFiles_elem, list_elem_of_In.
  - intros (file & decl & Hfile & Hreach & Ht). exists file.
    split; [by apply list_elem_of_In, loadedFiles_elem|].
    apply list_elem_of_In, gathered_reaches. by exists decl.
Qed.

(** A [type] declaration that is a statement of the body of a top-level
    function is reached from the file. *)
Lemma reaches_function_body file doc recv name params results body decl :
  FuncDecl doc recv name params results (Some body) ∈ File_Decls file ->
  DeclStmt decl ∈ body ->
  reaches (FileNode file) (DeclNode (GenDeclD decl)).
Proof.
  intros Hfunc Hstmt.
  apply reaches_below
    with (DeclNode (FuncDecl doc recv name params results (Some body))); [done| |].
  { simpl. rewrite !elem_of_app. right; right.
    by apply list_elem_of_In, in_map, list_elem_of_In. }
  apply reaches_below with (BlockNode body); [done| |].
  { apply list_elem_of_In. simpl. rewrite !in_app_iff. simpl. tauto. }
  apply reaches_below with (StmtNode (DeclStmt decl)); [done| |].
  { simpl. by apply list_elem_of_In, in_map, list_elem_of_In. }
  apply reaches_below with (DeclNode (GenDeclD decl)); [done|simpl; left|].
  constructor.
Qed.

End Reached.

(** C1 (amended).  [TypeInfos] is the concatenation, over the files that
    are not [nil] in file order, of what the walk of each file gathers;
    the walk gathers, at a [type] declaration, one entry per type spec of
    the declaration in order and, when there is one, goes no deeper;
    everywhere else it gathers what the children of the node give, from
    left to right.  So the entries are exactly the named types of the
    [type] declarations that the walk reaches in a file of the model: the
    top-level ones, which form an order-preserving subsequence of the
    result, and also those local to function bodies, each at its place in
    the text.  The result is exactly the top-level named types when no
    declaration of the files has a type declaration below it, and it
    depends on the files of the model only, so repeated calls return the
    same sequence. *)
Theorem TypeInfos_enumeration (pkg : PackageInfo) :
  flat_map topLevelTypes (loadedFiles (Files pkg))
    `sublist_of` PackageInfo_TypeInfos pkg
  /\ (forall t, t ∈ PackageInfo_TypeInfos pkg ->
        Some (TypeInfo_FileInfo t) ∈ Files pkg
        /\ namesTypeSpec (TypeInfo_FileInfo t) t)
  /\ (Forall (fun f => localTypeDecls f = []) (loadedFiles (Files pkg)) ->
      PackageInfo_TypeInfos pkg = flat_map topLevelTypes (loadedFiles (Files pkg)))
  /\ (forall pkg', Files pkg' = Files pkg ->
        PackageInfo_TypeInfos pkg' = PackageInfo_TypeInfos pkg)
  /\ PackageInfo_TypeInfos pkg
     = flat_map (fun file => gathered file (ast.FileNode file))
                (loadedFiles (Files pkg))
  /\ (forall file n,
        gathered file n
        = match n with
          | ast.DeclNode (ast.GenDeclD decl) =>
              declaredTypes file decl
              ++ (if bool_decide (declaredTypes file decl = [])
                  then flat_map (gathered file) (ast.children n)
                  else [])
          | _ => flat_map (gathered file) (ast.children n)
          end)
  /\ (forall t,
        t ∈ PackageInfo_TypeInfos pkg
        <-> exists file decl,
              Some file ∈ Files pkg
              /\ reaches (ast.FileNode file) (ast.DeclNode (ast.GenDeclD decl))
              /\ t ∈ declaredTypes file decl)
  /\ (forall file doc recv name params results body decl t,
        Some file ∈ Files pkg ->
        ast.FuncDecl doc recv name params results (Some body) ∈ ast.File_Decls file ->
        ast.DeclStmt decl ∈ body ->
        t ∈ declaredTypes file decl ->
        t ∈ PackageInfo_TypeInfos pkg).
Proof.
  split; [apply TypeInfos_topLevel_sublist|].
  split; [apply TypeInfos_entries|].
  split; [apply TypeInfos_topLevel_exact|].
  split; [intros pkg' Hfiles; unfold PackageInfo_TypeInfos; by rewrite Hfiles|].
  split; [apply TypeInfos_gathered|].
  split; [apply gathered_children|].
  split; [apply TypeInfos_reaches|].
  intros file doc recv name params results body decl t Hfile Hfunc Hstmt Ht.
  apply TypeInfos_reaches. exists file, decl. split; [done|]. split; [|done].
  by eapply reaches_function_body.
Qed.

Lemma TypeInfos_enumeration_witness :
  PackageInfo_TypeInfos pointPkg = [mkTypeInfo pointFile declPoint specPoint None]
  /\ PackageInfo_TypeInfos (mkPackageInfo "elsewhere" [Some pointFile] None)
     = PackageInfo_TypeInfos pointPkg
  /\ mkTypeInfo localTypeFile declT
       (ast.mkTypeSpec None (ast.mkIdent "T") intType None) None
     ∈ PackageInfo_TypeInfos localTypePkg.
Proof.
  destruct (TypeInfos_enumeration pointPkg) as (_ & _ & Hexact & Hstable & _).
  destruct (TypeInfos_enumeration localTypePkg) as (_ & _ & _ & _ & _ & _ & _ & Hlocal).
  split; [|split].
  - rewrite Hexact; [reflexivity|]. repeat constructor.
  - apply Hstable. reflexivity.
  - apply (Hlocal localTypeFile None None (ast.mkIdent "f") (Some []) None
             [ast.DeclStmt declT] declT).
    + left.
    + right; left.
    + left.
    + left.
Defined.

(** C1 as stated fails: in [package p; type A int; func f() { type T int }]
    the type [T] is local to [f], yet [TypeInfos] returns it after [A]. *)
Lemma TypeInfos_top_level_only_counterexample :
  PackageInfo_TypeInfos localTypePkg
    = [mkTypeInfo localTypeFile declA
         (ast.mkTypeSpec None (ast.mkIdent "A") intType None) None;
       mkTypeInfo localTypeFile declT
         (ast.mkTypeSpec None (ast.mkIdent "T") intType None) None]
  /\ flat_map topLevelTypes (loadedFiles (Files localTypePkg))
    = [mkTypeInfo localTypeFile declA
         (ast.mkTypeSpec None (ast.mkIdent "A") intType None) None]
  /\ PackageInfo_TypeInfos localTypePkg
     <> flat_map topLevelTypes (loadedFiles (Files localTypePkg)).
Proof. split; [reflexivity|]. split; [reflexivity|]. discriminate. Qed.


(** ** Field shapes *)

(** C2.  A field whose type is a pointer to a named type has [IsPtr] and
    none of the other four shape predicates; a field whose type is a
    collection of a named type has [IsArray] and none of the other four;
    a field whose type is a pointer to a collection has [IsPtr] and
    [IsPtrArray] but not [IsArray]. *)
Theorem shape_predicates_by_declared_type (f : FieldInfo) :
  (forall T, namedType T = true -> ast.Field_Type f = ast.StarExpr T ->
     FieldInfo_IsPtr f = true /\ FieldInfo_IsArray f = false
     /\ FieldInfo_IsPtrArray f = false /\ FieldInfo_IsArrayPtr f = false
     /\ FieldInfo_IsPtrArrayPtr f = false)
  /\ (forall len T, namedType T = true -> ast.Field_Type f = ast.ArrayType len T ->
        FieldInfo_IsArray f = true /\ FieldInfo_IsPtr f = false
        /\ FieldInfo_IsPtrArray f = false /\ FieldInfo_IsArrayPtr f = false
        /\ FieldInfo_IsPtrArrayPtr f = false)
  /\ (forall len elt, ast.Field_Type f = ast.StarExpr (ast.ArrayType len elt) ->
        FieldInfo_IsPtr f = true /\ FieldInfo_IsPtrArray f = true
        /\ FieldInfo_IsArray f = false).
Proof.
  unfold FieldInfo_IsPtr, FieldInfo_IsArray, FieldInfo_IsPtrArray,
    FieldInfo_IsArrayPtr, FieldInfo_IsPtrArrayPtr.
  repeat split; intros;
    repeat match goal with H : ast.Field_Type f = _ |- _ => rewrite H; clear H end;
    try reflexivity;
    match goal with H : namedType ?T = true |- _ => by destruct T end.
Qed.

Lemma shape_predicates_by_declared_type_witness :
  (FieldInfo_IsPtr fieldPtr = true /\ FieldInfo_IsArray fieldPtr = false
   /\ FieldInfo_IsPtrArray fieldPtr = false /\ FieldInfo_IsArrayPtr fieldPtr = false
   /\ FieldInfo_IsPtrArrayPtr fieldPtr = false)
  /\ (FieldInfo_IsArray fieldArray = true /\ FieldInfo_IsPtr fieldArray = false
      /\ FieldInfo_IsPtrArray fieldArray = false
      /\ FieldInfo_IsArrayPtr fieldArray = false
      /\ FieldInfo_IsPtrArrayPtr fieldArray = false)
  /\ (FieldInfo_IsPtr fieldPtrArray = true /\ FieldInfo_IsPtrArray fieldPtrArray = true
      /\ FieldInfo_IsArray fieldPtrArray = false).
Proof.
  split; [|split].
  - apply (proj1 (shape_predicates_by_declared_type fieldPtr) pointType);
      reflexivity.
  - apply (proj1 (proj2 (shape_predicates_by_declared_type fieldArray)) None pointType);
      reflexivity.
  - apply (proj2 (proj2 (shape_predicates_by_declared_type fieldPtrArray)) None pointType);
      reflexivity.
Defined.

(** C10.  [IsPtrArrayPtr] implies [IsPtrArray], [IsPtrArray] implies
    [IsPtr], [IsArrayPtr] implies [IsArray], and [IsPtr] and [IsArray]
    never hold together: they test the outermost node of the declared
    type, which has one kind. *)
Theorem shape_predicates_implications (f : FieldInfo) :
  (FieldInfo_IsPtrArrayPtr f = true -> FieldInfo_IsPtrArray f = true)
  /\ (FieldInfo_IsPtrArray f = true -> FieldInfo_IsPtr f = true)
  /\ (FieldInfo_IsArrayPtr f = true -> FieldInfo_IsArray f = true)
  /\ FieldInfo_IsPtr f && FieldInfo_IsArray f = false.
Proof.
  unfold FieldInfo_IsPtr, FieldInfo_IsArray, FieldInfo_IsPtrArray,
    FieldInfo_IsArrayPtr, FieldInfo_IsPtrArrayPtr.
  repeat split;
    repeat match goal with
           | |- context [match ?e with _ => _ end] => destruct e
           end;
    done.
Qed.

Lemma shape_predicates_implications_witness :
  FieldInfo_IsPtrArray fieldPtrArrayPtr = true
  /\ FieldInfo_IsPtr fieldPtrArrayPtr = true
  /\ FieldInfo_IsArray fieldArrayPtr = true.
Proof.
  pose proof (shape_predicates_implications fieldPtrArrayPtr) as (H1 & H2 & _).
  pose proof (shape_predicates_implications fieldArrayPtr) as (_ & _ & H3 & _).
  split; [apply H1; reflexivity|].
  split; [apply H2, H1; reflexivity|].
  apply H3; reflexivity.
Defined.

(** ** Records *)

Lemma FieldInfos_fold (fields : list ast.Field) (acc : FieldInfos) :
  fold_left (fun fields field => fields ++ [field]) fields acc = acc ++ fields.
Proof.
  revert acc; induction fields as [|x fields IH]; intros acc; simpl.
  - by rewrite app_nil_r.
  - rewrite IH. by rewrite <- app_assoc.
Qed.

Lemma FieldInfos_fields (st : StructTypeInfo) :
  StructTypeInfo_FieldInfos st = StructTypeInfo_Fields st.
Proof. unfold StructTypeInfo_FieldInfos. by rewrite FieldInfos_fold. Qed.

(** C9.  [StructType] returns the record shape, whose fields are those
    of the definition, when the definition of the declaration is a struct
    type; for any other definition it returns the error
    [ErrNotStructType], and it never returns another error.  The call
    reads the declaration only, so its name and documentation stay
    available to a caller that skips it. *)
Theorem StructType_record_or_error (t : TypeInfo) :
  (forall fields,
     ast.TypeSpec_Type (TypeInfo_TypeSpec t) = ast.StructType fields ->
     exists st, TypeInfo_StructType t = Ok st
                /\ StructTypeInfo_FieldInfos st = fields)
  /\ ((forall fields,
         ast.TypeSpec_Type (TypeInfo_TypeSpec t) <> ast.StructType fields) ->
      TypeInfo_StructType t = Err ErrNotStructType)
  /\ (forall err, TypeInfo_StructType t = Err err -> err = ErrNotStructType).
Proof.
  unfold TypeInfo_StructType. split; [|split].
  - intros fields ->. eexists; split; [reflexivity|]. apply FieldInfos_fields.
  - intros Hnot. destruct (ast.TypeSpec_Type (TypeInfo_TypeSpec t)); try reflexivity.
    by edestruct Hnot.
  - intros err. destruct (ast.TypeSpec_Type (TypeInfo_TypeSpec t)); congruence.
Qed.

Lemma StructType_record_or_error_witness :
  (exists st, TypeInfo_StructType (mkTypeInfo pointFile declPoint specPoint None) = Ok st
              /\ StructTypeInfo_FieldInfos st = [fieldX; fieldY; fieldTags])
  /\ TypeInfo_StructType
       (mkTypeInfo localTypeFile declA
          (ast.mkTypeSpec None (ast.mkIdent "A") intType None) None)
     = Err ErrNotStructType.
Proof.
  split.
  - apply (proj1 (StructType_record_or_error
                    (mkTypeInfo pointFile declPoint specPoint None))).
    reflexivity.
  - apply (proj1 (proj2 (StructType_record_or_error
                    (mkTypeInfo localTypeFile declA
                       (ast.mkTypeSpec None (ast.mkIdent "A") intType None) None)))).
    intros fields. discriminate.
Defined.

(** ** Selecting declarations *)

Lemma matchesName_elem t typeNames :
  matchesName t typeNames = bool_decide (TypeInfo_Name t ∈ typeNames).
Proof.
  induction typeNames as [|name rest IH]; cbn [matchesName].
  - symmetry. apply bool_decide_eq_false_2, not_elem_of_nil.
  - destruct (String.eqb_spec (TypeInfo_Name t) name) as [->|Hne].
    + symmetry. apply bool_decide_eq_true_2. left.
    + rewrite IH. apply bool_decide_ext. rewrite elem_of_cons. tauto.
Qed.

Lemma CollectTypeInfos_fold typeNames types ret :
  fold_left (fun ret t => if matchesName t typeNames then ret ++ [t] else ret)
            types ret
  = ret ++ filter (fun t => TypeInfo_Name t ∈ typeNames) types.
Proof.
  revert ret; induction types as [|t types IH]; intros ret; simpl.
  - by rewrite app_nil_r.
  - rewrite IH, matchesName_elem, filter_cons.
    case_bool_decide; case_decide; try done. by rewrite <- app_assoc.
Qed.

Lemma filter_none {X : Type} (P : X -> Prop) `{!forall x, Decision (P x)} (l : list X) :
  (forall x, x ∈ l -> ~ P x) -> filter P l = [].
Proof.
  induction l as [|x l IH]; intros Hnone; [done|].
  rewrite filter_cons_False by (apply Hnone; left).
  apply IH. intros y Hy. apply Hnone. by right.
Qed.

(** C6.  [CollectTypeInfos] returns the entries of [TypeInfos] whose name
    is an entry of the name list, and no others: it is the filter of
    [TypeInfos] by that test, hence a subsequence in the same order in
    which no entry is repeated, however often its name is listed.  When
    no declaration bears a listed name the result is empty; the function
    has no error result. *)
Theorem CollectTypeInfos_filter (pkg : PackageInfo) (typeNames : list string) :
  PackageInfo_CollectTypeInfos pkg typeNames
    = filter (fun t => TypeInfo_Name t ∈ typeNames) (PackageInfo_TypeInfos pkg)
  /\ PackageInfo_CollectTypeInfos pkg typeNames
       `sublist_of` PackageInfo_TypeInfos pkg
  /\ ((forall t, t ∈ PackageInfo_TypeInfos pkg -> TypeInfo_Name t ∉ typeNames) ->
      PackageInfo_CollectTypeInfos pkg typeNames = []).
Proof.
  assert (PackageInfo_CollectTypeInfos pkg typeNames
          = filter (fun t => TypeInfo_Name t ∈ typeNames) (PackageInfo_TypeInfos pkg))
    as Heq by (unfold PackageInfo_CollectTypeInfos; by rewrite CollectTypeInfos_fold).
  split; [exact Heq|]. rewrite Heq. split; [apply sublist_filter|].
  intros Hnone. apply filter_none. exact Hnone.
Qed.

Lemma CollectTypeInfos_filter_witness :
  PackageInfo_CollectTypeInfos pointPkg ["Circle"; "Line"] = [].
Proof.
  apply (proj2 (proj2 (CollectTypeInfos_filter pointPkg ["Circle"; "Line"]))).
  intros t Ht. change (PackageInfo_TypeInfos pointPkg)
    with [mkTypeInfo pointFile declPoint specPoint None] in Ht.
  apply list_elem_of_singleton in Ht as ->.
  intros Hin. repeat (apply elem_of_cons in Hin as [Hin|Hin]; [discriminate|]).
  by apply elem_of_nil in Hin.
Defined.

(** ** Documentation comments and tags *)

Lemma Doc_setAnnotatedComment t c :
  TypeInfo_Doc (setAnnotatedComment t c) = TypeInfo_Doc t.
Proof. reflexivity. Qed.

Lemma findAnnotation_Some carriesTag cg tag c :
  findAnnotation carriesTag cg tag = Some c ->
  exists doc, cg = Some doc /\ c ∈ ast.CommentGroup_List doc
              /\ carriesTag (ast.Comment_Text c) tag = true.
Proof.
  destruct cg as [doc|]; simpl; [|done]. intros Hfind.
  apply find_some in Hfind as [Hin Hc]. exists doc.
  split; [done|]. split; [by apply list_elem_of_In|done].
Qed.

Lemma CollectTagged_fold carriesTag tag types ret :
  fold_left
    (fun ret t =>
       match findAnnotation carriesTag (TypeInfo_Doc t) tag with
       | Some c => let t := setAnnotatedComment t c in ret ++ [t]
       | None => ret
       end) types ret
  = ret ++ omap (fun t => setAnnotatedComment t
                            <$> findAnnotation carriesTag (TypeInfo_Doc t) tag) types.
Proof.
  revert ret; induction types as [|t types IH]; intros ret; simpl.
  - by rewrite app_nil_r.
  - rewrite IH. destruct (findAnnotation carriesTag (TypeInfo_Doc t) tag); simpl; [|done].
    by rewrite <- app_assoc.
Qed.

Lemma CollectTagged_omap carriesTag pkg tag :
  PackageInfo_CollectTaggedTypeInfos carriesTag pkg tag
  = omap (fun t => setAnnotatedComment t
                     <$> findAnnotation carriesTag (TypeInfo_Doc t) tag)
         (PackageInfo_TypeInfos pkg).
Proof. unfold PackageInfo_CollectTaggedTypeInfos. by rewrite CollectTagged_fold. Qed.

Lemma CollectTagged_documented carriesTag pkg tag t :
  t ∈ PackageInfo_CollectTaggedTypeInfos carriesTag pkg tag ->
  exists doc c, TypeInfo_Doc t = Some doc /\ c ∈ ast.CommentGroup_List doc
                /\ carriesTag (ast.Comment_Text c) tag = true
                /\ AnnotatedComment t = Some c.
Proof.
  rewrite CollectTagged_omap, list_elem_of_omap. intros (t0 & _ & Ht).
  destruct (findAnnotation carriesTag (TypeInfo_Doc t0) tag) as [c|] eqn:Hfind;
    simpl in Ht; [|done].
  injection Ht as <-. apply findAnnotation_Some in Hfind as (doc & Hdoc & Hc & Htag).
  exists doc, c. by rewrite Doc_setAnnotatedComment.
Qed.

(** C7.  [Doc] returns the documentation comment of the type itself when
    there is one, whatever the declaration group has; otherwise that of
    the enclosing declaration group; and nothing when neither exists.
    Hence tag selection only returns declarations that have a
    documentation comment, one line of which carries the tag, and a
    declaration without documentation comment is in no tagged result. *)
Theorem Doc_priority_and_tags (t : TypeInfo) :
  (forall doc, ast.TypeSpec_Doc (TypeInfo_TypeSpec t) = Some doc ->
     TypeInfo_Doc t = Some doc)
  /\ (ast.TypeSpec_Doc (TypeInfo_TypeSpec t) = None ->
      TypeInfo_Doc t = ast.GenDecl_Doc (TypeInfo_GenDecl t))
  /\ (ast.TypeSpec_Doc (TypeInfo_TypeSpec t) = None ->
      ast.GenDecl_Doc (TypeInfo_GenDecl t) = None -> TypeInfo_Doc t = None)
  /\ (forall carriesTag pkg tag,
        t ∈ PackageInfo_CollectTaggedTypeInfos carriesTag pkg tag ->
        exists doc c, TypeInfo_Doc t = Some doc /\ c ∈ ast.CommentGroup_List doc
                      /\ carriesTag (ast.Comment_Text c) tag = true
                      /\ AnnotatedComment t = Some c)
  /\ (forall carriesTag pkg tag c,
        TypeInfo_Doc t = None ->
        (t ∉ PackageInfo_CollectTaggedTypeInfos carriesTag pkg tag)
        /\ (setAnnotatedComment t c
              ∉ PackageInfo_CollectTaggedTypeInfos carriesTag pkg tag)).
Proof.
  unfold TypeInfo_Doc at 1 2 3.
  split; [by intros doc ->|]. split; [intros ->; by destruct (ast.GenDecl_Doc _)|].
  split; [by intros -> ->|]. split; [intros ? ? ?; apply CollectTagged_documented|].
  intros carriesTag pkg tag c Hnone.
  split; intros Hin; apply CollectTagged_documented in Hin as (doc & ? & Hdoc & _).
  - congruence.
  - rewrite Doc_setAnnotatedComment in Hdoc. congruence.
Qed.

Lemma Doc_priority_and_tags_witness :
  TypeInfo_Doc (mkTypeInfo shapesFile declShapes specEdge None) = Some docEdge
  /\ TypeInfo_Doc (mkTypeInfo shapesFile declShapes specCircle None) = Some docShapes
  /\ TypeInfo_Doc (mkTypeInfo shapesFile declBare specBare None) = None
  /\ (exists doc c,
        TypeInfo_Doc (mkTypeInfo shapesFile declShapes specCircle
                                 (Some (ast.mkComment "// +gen"))) = Some doc
        /\ c ∈ ast.CommentGroup_List doc
        /\ plusTag (ast.Comment_Text c) "gen" = true
        /\ AnnotatedComment (mkTypeInfo shapesFile declShapes specCircle
                                        (Some (ast.mkComment "// +gen"))) = Some c)
  /\ mkTypeInfo shapesFile declBare specBare None
       ∉ PackageInfo_CollectTaggedTypeInfos plusTag shapesPkg "gen".
Proof.
  split; [|split; [|split; [|split]]].
  - apply (proj1 (Doc_priority_and_tags
                    (mkTypeInfo shapesFile declShapes specEdge None))).
    reflexivity.
  - apply (proj1 (proj2 (Doc_priority_and_tags
                    (mkTypeInfo shapesFile declShapes specCircle None)))).
    reflexivity.
  - apply (proj1 (proj2 (proj2 (Doc_priority_and_tags
                    (mkTypeInfo shapesFile declBare specBare None))))); reflexivity.
  - apply (proj1 (proj2 (proj2 (proj2 (Doc_priority_and_tags
                    (mkTypeInfo shapesFile declShapes specCircle
                                (Some (ast.mkComment "// +gen"))))))) plusTag shapesPkg "gen").
    left.
  - apply (proj2 (proj2 (proj2 (proj2 (Doc_priority_and_tags
                    (mkTypeInfo shapesFile declBare specBare None)))))
             plusTag shapesPkg "gen" (ast.mkComment "// +gen")).
    reflexivity.
Defined.

(** ** Import lookup *)

Lemma findImport_find imports packageIdent :
  findImport imports packageIdent
  = List.find (fun imp => importMatches imp packageIdent) imports.
Proof.
  induction imports as [|imp rest IH]; simpl; [done|].
  unfold importMatches, aliasIs, pathEndsWith, pathIs. rewrite IH.
  destruct (match ast.ImportSpec_Name imp with
            | Some name => String.eqb (ast.Ident_Name name) packageIdent
            | None => false
            end); [done|].
  destruct (strings.HasSuffix _ _); [done|].
  by destruct (String.eqb _ _).
Qed.

Lemma find_first {X : Type} (test : X -> bool) l x :
  List.find test l = Some x ->
  exists before after,
    l = before ++ x :: after /\ test x = true
    /\ Forall (fun y => test y = false) before.
Proof.
  induction l as [|y l IH]; simpl; [done|].
  destruct (test y) eqn:Hy.
  - intros [= ->]. exists [], l. by repeat split.
  - intros (before & after & -> & Hx & Hbefore)%IH.
    exists (y :: before), after. repeat split; [done|]. by constructor.
Qed.

Lemma find_none_iff {X : Type} (test : X -> bool) l :
  List.find test l = None <-> Forall (fun y => test y = false) l.
Proof.
  induction l as [|y l IH]; simpl; [by split; [constructor|]|].
  destruct (test y) eqn:Hy.
  - split; [done|]. intros Hall. apply Forall_cons_1 in Hall as [Hy' _]. congruence.
  - rewrite IH. split; [by constructor|]. by intros [_ ?]%Forall_cons_1.
Qed.

Lemma find_app_first {X : Type} (test : X -> bool) before x after :
  Forall (fun y => test y = false) before -> test x = true ->
  List.find test (before ++ x :: after) = Some x.
Proof.
  induction 1 as [|y before Hy _ IH]; simpl; intros Hx; [by rewrite Hx|].
  rewrite Hy. by apply IH.
Qed.

Lemma FindImportSpecByIdent_find file packageIdent :
  FileInfo_FindImportSpecByIdent file packageIdent
  = List.find (fun imp => importMatches imp packageIdent) (ast.File_Imports file).
Proof. apply findImport_find. Qed.

Lemma FindImportSpecByIdent_first file packageIdent imp :
  FileInfo_FindImportSpecByIdent file packageIdent = Some imp ->
  exists before after,
    ast.File_Imports file = before ++ imp :: after
    /\ importMatches imp packageIdent = true
    /\ Forall (fun other => importMatches other packageIdent = false) before.
Proof.
  rewrite FindImportSpecByIdent_find.
  apply (find_first (fun other => importMatches other packageIdent)).
Qed.

Lemma FindImportSpecByIdent_none file packageIdent :
  FileInfo_FindImportSpecByIdent file packageIdent = None
  <-> Forall (fun imp => importMatches imp packageIdent = false)
             (ast.File_Imports file).
Proof.
  rewrite FindImportSpecByIdent_find.
  apply (find_none_iff (fun imp => importMatches imp packageIdent)).
Qed.

Lemma FindImportSpecByIdent_none_priority file packageIdent :
  FileInfo_FindImportSpecByIdent file packageIdent = None
  <-> findImportByPriority (ast.File_Imports file) packageIdent = None.
Proof.
  rewrite FindImportSpecByIdent_none. unfold findImportByPriority. split.
  - rewrite Forall_forall. intros Hnone.
    assert (forall test : ast.ImportSpec -> bool,
              (forall imp, importMatches imp packageIdent = false -> test imp = false) ->
              List.find test (ast.File_Imports file) = None) as Hfind.
    { intros test Htest. apply find_none_iff, Forall_forall. auto. }
    unfold importMatches in Hfind.
    rewrite !Hfind; [done|..]; intros imp Himp;
      apply orb_false_elim in Himp as [Himp ?]; apply orb_false_elim in Himp as [? ?];
      done.
  - destruct (List.find (fun imp => aliasIs imp packageIdent) _) eqn:Ha; [done|].
    destruct (List.find (fun imp => pathEndsWith imp packageIdent) _) eqn:Hb; [done|].
    intros Hc. apply find_none_iff in Ha, Hb, Hc.
    rewrite Forall_forall in Ha, Hb, Hc. apply Forall_forall.
    intros imp Himp. unfold importMatches.
    by rewrite (Ha imp Himp), (Hb imp Himp), (Hc imp Himp).
Qed.

Lemma FindImportSpecByIdent_alias_priority file packageIdent imp :
  FileInfo_FindImportSpecByIdent file packageIdent = Some imp ->
  aliasIs imp packageIdent = true ->
  findImportByPriority (ast.File_Imports file) packageIdent = Some imp.
Proof.
  intros (before & after & -> & _ & Hbefore)%FindImportSpecByIdent_first Halias.
  unfold findImportByPriority.
  rewrite find_app_first; [done| |done].
  eapply Forall_impl; [exact Hbefore|]. intros other Hother.
  unfold importMatches in Hother.
  apply orb_false_elim in Hother as [Hother _].
  by apply orb_false_elim in Hother as [? _].
Qed.

(** Tests (b) and (c) look at the path alone: in
    [import baz "x/foo"; import foo "bar"] the lookup of [foo] returns
    the import that is renamed to [baz]. *)
Lemma FindImportSpecByIdent_renamed_import :
  FileInfo_FindImportSpecByIdent renamedImportFile "foo" = Some importBazFoo
  /\ renamedAway importBazFoo "foo" = true.
Proof. split; reflexivity. Qed.

(** C8 (amended).  In a file where no import is renamed to another
    identifier while its path passes test (b) or (c),
    [FindImportSpecByIdent] scans the imports once, in file order, and
    returns the first import that passes one of the three tests: (a) its
    alias is the identifier, (b) its quoted path ends in a slash followed
    by the identifier, (c) its quoted path is the identifier.  The tests
    are tried in that order on each import in turn, not as three passes
    over the imports, so the returned import is preceded by no import
    that passes any test.  The result is [nil] exactly when no import
    passes any test, which is also when the three passes of the spec's
    wording find nothing; an import returned for its alias is the one
    the three passes return; and the returned import has the identifier
    as alias or has no alias. *)
Theorem FindImportSpecByIdent_first_match (file : FileInfo) (packageIdent : string) :
  Forall (fun imp => renamedAway imp packageIdent = false) (ast.File_Imports file) ->
  FileInfo_FindImportSpecByIdent file packageIdent
    = List.find (fun imp => importMatches imp packageIdent) (ast.File_Imports file)
  /\ (forall imp,
        FileInfo_FindImportSpecByIdent file packageIdent = Some imp ->
        exists before after,
          ast.File_Imports file = before ++ imp :: after
          /\ importMatches imp packageIdent = true
          /\ Forall (fun other => importMatches other packageIdent = false) before)
  /\ (FileInfo_FindImportSpecByIdent file packageIdent = None
      <-> Forall (fun imp => importMatches imp packageIdent = false)
                 (ast.File_Imports file))
  /\ (FileInfo_FindImportSpecByIdent file packageIdent = None
      <-> findImportByPriority (ast.File_Imports file) packageIdent = None)
  /\ (forall imp,
        FileInfo_FindImportSpecByIdent file packageIdent = Some imp ->
        aliasIs imp packageIdent = true ->
        findImportByPriority (ast.File_Imports file) packageIdent = Some imp)
  /\ (forall imp,
        FileInfo_FindImportSpecByIdent file packageIdent = Some imp ->
        aliasIs imp packageIdent = true \/ ast.ImportSpec_Name imp = None).
Proof.
  intros Hplain. split; [apply FindImportSpecByIdent_find|].
  split; [apply FindImportSpecByIdent_first|].
  split; [apply FindImportSpecByIdent_none|].
  split; [apply FindImportSpecByIdent_none_priority|].
  split; [apply FindImportSpecByIdent_alias_priority|].
  intros imp (before & after & Himports & Hmatch & _)%FindImportSpecByIdent_first.
  rewrite Forall_forall in Hplain.
  assert (renamedAway imp packageIdent = false) as Hrenamed.
  { apply Hplain. rewrite Himports, elem_of_app. right; left. }
  unfold importMatches in Hmatch. unfold renamedAway in Hrenamed.
  unfold aliasIs in *. destruct (ast.ImportSpec_Name imp) as [name|]; [|by right].
  left. destruct (String.eqb (ast.Ident_Name name) packageIdent); [done|].
  simpl in Hmatch, Hrenamed. congruence.
Qed.

(** C8 as stated fails: with [import "x/foo"] before [import foo "bar"]
    the lookup of [foo] returns the first import, which passes test (b),
    while trying the alias first returns the second. *)
Lemma FindImportSpecByIdent_priority_counterexample :
  FileInfo_FindImportSpecByIdent twoImportsFile "foo" = Some importPathFoo
  /\ findImportByPriority (ast.File_Imports twoImportsFile) "foo" = Some importAliasFoo
  /\ FileInfo_FindImportSpecByIdent twoImportsFile "foo"
     <> findImportByPriority (ast.File_Imports twoImportsFile) "foo".
Proof. split; [reflexivity|]. split; [reflexivity|]. discriminate. Qed.

Lemma FindImportSpecByIdent_first_match_witness :
  (exists before after,
     ast.File_Imports twoImportsFile = before ++ importPathFoo :: after
     /\ importMatches importPathFoo "foo" = true
     /\ Forall (fun other => importMatches other "foo" = false) before)
  /\ findImportByPriority (ast.File_Imports aliasFirstFile) "foo"
     = Some importAliasFoo.
Proof.
  assert (Forall (fun imp => renamedAway imp "foo" = false)
                 (ast.File_Imports twoImportsFile)) as Hplain
    by (repeat constructor).
  assert (Forall (fun imp => renamedAway imp "foo" = false)
                 (ast.File_Imports aliasFirstFile)) as Hplain'
    by (repeat constructor).
  split.
  - apply (proj1 (proj2 (FindImportSpecByIdent_first_match twoImportsFile "foo" Hplain))).
    reflexivity.
  - pose proof (FindImportSpecByIdent_first_match aliasFirstFile "foo" Hplain')
      as (_ & _ & _ & _ & Halias & _).
    apply (Halias importAliasFoo); reflexivity.
Defined.

(** ** Loading *)

Section LoadingFacts.
Context `{Host}.

Lemma parseFiles_inputs codes idx fileNames files :
  parseFiles codes idx fileNames files
  = parseInputs (sourceInputs codes idx fileNames) files.
Proof.
  revert idx files; induction fileNames as [|fileName rest IH]; intros idx files;
    simpl; [done|].
  destruct (strings.HasSuffix fileName ".go"); simpl; [|apply IH].
  destruct (ParseFile fileName (codes !! idx)); [apply IH|done].
Qed.

Lemma sourceInputs_extension codes idx fileNames :
  Forall (fun input => strings.HasSuffix input.1 ".go" = true)
         (sourceInputs codes idx fileNames).
Proof.
  revert idx; induction fileNames as [|fileName rest IH]; intros idx; simpl;
    [constructor|].
  destruct (strings.HasSuffix fileName ".go") eqn:Hext; [|apply IH].
  constructor; [done|apply IH].
Qed.

Lemma sourceInputs_filter_nil codes idx fileNames :
  filter (fun name => strings.HasSuffix name ".go" = true) fileNames = [] ->
  sourceInputs codes idx fileNames = [].
Proof.
  revert idx; induction fileNames as [|fileName rest IH]; intros idx; simpl; [done|].
  destruct (strings.HasSuffix fileName ".go") eqn:Hext.
  - by rewrite filter_cons_True.
  - rewrite filter_cons_False by congruence. apply IH.
Qed.

Lemma parsePackage_no_source p directory fileNames codes :
  filter (fun name => strings.HasSuffix name ".go" = true) fileNames = [] ->
  parsePackage p directory fileNames codes
  = Err (directory +:+ ": no buildable Go files").
Proof.
  intros Hnone. unfold parsePackage.
  by rewrite parseFiles_inputs, (sourceInputs_filter_nil _ _ _ Hnone).
Qed.

End LoadingFacts.

(** C5.  When no file name is left after the names without the [.go]
    extension are filtered out, loading fails with the error
    [<directory>: no buildable Go files]: from [parsePackage] and from
    each of the three entry points (for a directory, once its build
    metadata was found).  The names without the extension are dropped
    without an error of their own: the parser receives exactly the names
    with the extension, in order, each with the code at its own index. *)
Theorem no_source_files_error `{Host} (p : Parser) (directory : string)
    (fileNames codes : list string) :
  (filter (fun name => strings.HasSuffix name ".go" = true) fileNames = [] ->
   parsePackage p directory fileNames codes
   = Err (directory +:+ ": no buildable Go files"))
  /\ (parseFiles codes 0 fileNames []
      = parseInputs (sourceInputs codes 0 fileNames) []
      /\ Forall (fun input => strings.HasSuffix input.1 ".go" = true)
                (sourceInputs codes 0 fileNames))
  /\ (filter (fun name => strings.HasSuffix name ".go" = true) fileNames = [] ->
      ParsePackageFiles p fileNames = Err ("." +:+ ": no buildable Go files"))
  /\ (forall fileName code,
        strings.HasSuffix fileName ".go" = false ->
        ParseStringSource p fileName code = Err ("." +:+ ": no buildable Go files"))
  /\ (forall pkg,
        ImportDir directory = Ok pkg ->
        filter (fun name => strings.HasSuffix name ".go" = true)
               (pathJoinAll directory
                  (build.GoFiles pkg ++ build.CgoFiles pkg ++ build.SFiles pkg)) = [] ->
        ParsePackageDir p directory = Err (directory +:+ ": no buildable Go files")).
Proof.
  split; [apply parsePackage_no_source|].
  split; [split; [apply parseFiles_inputs|apply sourceInputs_extension]|].
  split; [apply parsePackage_no_source|].
  split.
  - intros fileName code Hext. apply parsePackage_no_source.
    rewrite filter_cons_False by congruence. done.
  - intros pkg Hdir Hnone. unfold ParsePackageDir. rewrite Hdir.
    apply parsePackage_no_source. simpl. by rewrite <- app_assoc.
Qed.

Lemma no_source_files_error_witness :
  @parsePackage pointHost (mkParser false) "docs" ["README.md"; "main.c"] []
    = Err "docs: no buildable Go files"
  /\ @ParsePackageFiles pointHost (mkParser false) ["README.md"; "main.c"]
     = Err ".: no buildable Go files"
  /\ @ParseStringSource pointHost (mkParser true) "point.txt" pointSource
     = Err ".: no buildable Go files"
  /\ @ParsePackageDir pointHost (mkParser false) "asm"
     = Err "asm: no buildable Go files".
Proof.
  pose proof (@no_source_files_error pointHost (mkParser false) "docs"
                ["README.md"; "main.c"] []) as (Hpkg & _ & Hfiles & _ & _).
  pose proof (@no_source_files_error pointHost (mkParser true) "docs" [] [])
    as (_ & _ & _ & Hstring & _).
  pose proof (@no_source_files_error pointHost (mkParser false) "asm" [] [])
    as (_ & _ & _ & _ & Hdir).
  split; [apply Hpkg; reflexivity|].
  split; [apply Hfiles; reflexivity|].
  split; [apply Hstring; reflexivity|].
  apply (Hdir (build.mkPackage [] [] ["add_amd64.s"])); reflexivity.
Defined.

(** C4.  Suppose the files are parsed and semantic resolution reports an
    error.  With [SkipSemanticsCheck] set, [parsePackage] returns, without
    error, the model of those files with no resolved package, and
    [TypeInfos] on that model returns what it returns on a model of the
    same files with resolved types: in particular the top-level type
    declarations, so a non-empty sequence when there is one.  Without
    the flag, [parsePackage] returns that error and no model. *)
Theorem semantic_failure_modes `{Host} (p : Parser) (directory : string)
    (fileNames codes : list string) (files : FileInfos)
    (typesPkg : option types.Package) (err : error) :
  parseFiles codes 0 fileNames [] = Ok files ->
  files <> [] ->
  Check directory (FileInfos_AstFiles files) = (typesPkg, Some err) ->
  (SkipSemanticsCheck p = true ->
     parsePackage p directory fileNames codes = Ok (mkPackageInfo directory files None)
     /\ (forall resolved,
           PackageInfo_TypeInfos (mkPackageInfo directory files None)
           = PackageInfo_TypeInfos (mkPackageInfo directory files resolved))
     /\ flat_map topLevelTypes (loadedFiles files)
          `sublist_of` PackageInfo_TypeInfos (mkPackageInfo directory files None)
     /\ (flat_map topLevelTypes (loadedFiles files) <> [] ->
         PackageInfo_TypeInfos (mkPackageInfo directory files None) <> []))
  /\ (SkipSemanticsCheck p = false ->
      parsePackage p directory fileNames codes = Err err).
Proof.
  intros Hparse Hfiles Hcheck.
  assert (parsePackage p directory fileNames codes
          = if SkipSemanticsCheck p then Ok (mkPackageInfo directory files None)
            else Err err) as Hload.
  { unfold parsePackage. rewrite Hparse.
    destruct files as [|file files']; [done|]. simpl. simpl in Hcheck.
    by rewrite Hcheck. }
  pose proof (TypeInfos_topLevel_sublist (mkPackageInfo directory files None)) as Hsub.
  simpl in Hsub.
  split; intros Hskip; rewrite Hskip in Hload; [|done].
  split; [done|]. split; [done|]. split; [done|].
  intros Htop Hnil. rewrite Hnil in Hsub. by apply sublist_nil_r in Hsub.
Qed.

Lemma semantic_failure_modes_witness :
  (@parsePackage brokenImportHost (mkParser true) "." ["point.go"] [pointSource]
     = Ok (mkPackageInfo "." [Some pointFile] None)
   /\ PackageInfo_TypeInfos (mkPackageInfo "." [Some pointFile] None) <> [])
  /\ @parsePackage brokenImportHost (mkParser false) "." ["point.go"] [pointSource]
     = Err "could not import missing/dep".
Proof.
  assert (@parseFiles brokenImportHost [pointSource] 0 ["point.go"] []
          = Ok [Some pointFile]) as Hparse by reflexivity.
  assert ([Some pointFile] <> []) as Hfiles by discriminate.
  assert (@Check brokenImportHost "." (FileInfos_AstFiles [Some pointFile])
          = (None, Some "could not import missing/dep")) as Hcheck by reflexivity.
  pose proof (@semantic_failure_modes brokenImportHost (mkParser true) "."
                ["point.go"] [pointSource] _ _ _ Hparse Hfiles Hcheck)
    as [Hlenient _].
  pose proof (@semantic_failure_modes brokenImportHost (mkParser false) "."
                ["point.go"] [pointSource] _ _ _ Hparse Hfiles Hcheck)
    as [_ Hstrict].
  destruct (Hlenient eq_refl) as (Hload & _ & _ & Hnonempty).
  split; [split; [exact Hload|]|exact (Hstrict eq_refl)].
  apply Hnonempty. discriminate.
Defined.

(** ** The scenario of a single in-memory file *)

Lemma TypeInfos_single_file directory file typesPkg :
  localTypeDecls file = [] ->
  PackageInfo_TypeInfos (mkPackageInfo directory [Some file] typesPkg)
  = topLevelTypes file.
Proof.
  intros Hfree. rewrite TypeInfos_topLevel_exact; simpl.
  - by rewrite app_nil_r.
  - by repeat constructor.
Qed.

(** The scenario of the file that declares
    [type Point struct { X int; Y *int; Tags []string }], loaded from
    memory under a name with the [.go] extension, when resolution
    succeeds or [SkipSemanticsCheck] is set.  What [parsing.go] decides:
    one declaration, named [Point], whose record shape has the three
    fields; [Y] has [IsPtr] and [Tags] has [IsArray].  The two [IsInt]
    clauses are those of [ExprToBaseTypeName] as modelled above, under
    which the base type of [Y] is [int]; the source of that function is
    what settles them. *)
Lemma point_scenario `{Host} (p : Parser) (fileName code : string)
    (file : ast.File) :
  strings.HasSuffix fileName ".go" = true ->
  ParseFile fileName (Some code) = Ok file ->
  ast.File_Decls file = [ast.GenDeclD declPoint] ->
  SkipSemanticsCheck p = true \/ (Check "." [Some file]).2 = None ->
  exists pkg t st,
    ParseStringSource p fileName code = Ok pkg
    /\ PackageInfo_TypeInfos pkg = [t]
    /\ TypeInfo_Name t = "Point"
    /\ TypeInfo_StructType t = Ok st
    /\ StructTypeInfo_FieldInfos st = [fieldX; fieldY; fieldTags]
    /\ FieldInfo_IsInt fieldX = true
    /\ FieldInfo_IsPtr fieldY = true
    /\ FieldInfo_IsInt fieldY = true
    /\ FieldInfo_IsArray fieldTags = true.
Proof.
  intros Hext Hparse Hdecls Hresolved.
  assert (exists typesPkg,
            ParseStringSource p fileName code
            = Ok (mkPackageInfo "." [Some file] typesPkg)) as [typesPkg Hload].
  { unfold ParseStringSource, parsePackage; simpl. rewrite Hext; simpl.
    rewrite Hparse; simpl. unfold FileInfo_AstFile.
    destruct (Check "." [Some file]) as [typesPkg [err|]];
      [|eexists; reflexivity].
    destruct Hresolved as [->|Hnone]; [eexists; reflexivity|done]. }
  exists (mkPackageInfo "." [Some file] typesPkg),
    (mkTypeInfo file declPoint specPoint None),
    (mkStructTypeInfo [fieldX; fieldY; fieldTags]).
  split; [exact Hload|]. split; [|by repeat split].
  rewrite TypeInfos_single_file.
  - unfold topLevelTypes. by rewrite Hdecls.
  - unfold localTypeDecls. by rewrite Hdecls.
Qed.

Lemma point_scenario_witness :
  exists pkg t st,
    @ParseStringSource pointHost (mkParser false) "point.go" pointSource = Ok pkg
    /\ PackageInfo_TypeInfos pkg = [t]
    /\ TypeInfo_Name t = "Point"
    /\ TypeInfo_StructType t = Ok st
    /\ StructTypeInfo_FieldInfos st = [fieldX; fieldY; fieldTags]
    /\ FieldInfo_IsInt fieldX = true
    /\ FieldInfo_IsPtr fieldY = true
    /\ FieldInfo_IsInt fieldY = true
    /\ FieldInfo_IsArray fieldTags = true.
Proof.
  apply (@point_scenario pointHost (mkParser false) "point.go" pointSource pointFile).
  - reflexivity.
  - reflexivity.
  - reflexivity.
  - right. reflexivity.
Defined.

(** * Further properties of [parsing.go] *)

(** ** The extension test *)

Lemma string_append_cons (c : Ascii.ascii) (s1 s2 : string) :
  String c s1 +:+ s2 = String c (s1 +:+ s2).
Proof. reflexivity. Qed.

Lemma string_length_append (s1 s2 : string) :
  String.length (s1 +:+ s2) = String.length s1 + String.length s2.
Proof.
  induction s1 as [|c s1 IH]; [done|]. rewrite string_append_cons; simpl.
  by rewrite IH.
Qed.

Lemma string_append_assoc (s1 s2 s3 : string) :
  (s1 +:+ s2) +:+ s3 = s1 +:+ (s2 +:+ s3).
Proof.
  induction s1 as [|c s1 IH]; [done|]. rewrite !string_append_cons. by f_equal.
Qed.

Lemma substring_all (s : string) : String.substring 0 (String.length s) s = s.
Proof. induction s as [|c s IH]; simpl; [done|]. by rewrite IH. Qed.

Lemma substring_skip_append (s1 s2 : string) (n : nat) :
  String.substring (String.length s1) n (s1 +:+ s2) = String.substring 0 n s2.
Proof.
  induction s1 as [|c s1 IH]; [done|]. rewrite string_append_cons; simpl. apply IH.
Qed.

Lemma substring_split (s : string) (n : nat) :
  n <= String.length s ->
  s = String.substring 0 n s +:+ String.substring n (String.length s - n) s.
Proof.
  revert n; induction s as [|c s IH]; intros [|n] Hn; simpl in *.
  - done.
  - lia.
  - change ("" +:+ String c (String.substring 0 (String.length s) s))
      with (String c (String.substring 0 (String.length s) s)).
    by rewrite substring_all.
  - rewrite string_append_cons. f_equal. apply IH. lia.
Qed.

(** [strings.HasSuffix] holds exactly of the strings that end in the
    suffix. *)
Lemma HasSuffix_iff (s suffix : string) :
  strings.HasSuffix s suffix = true <-> exists stem, s = stem +:+ suffix.
Proof.
  unfold strings.HasSuffix. rewrite andb_true_iff, Nat.leb_le, String.eqb_eq. split.
  - intros [Hlen Hsub].
    exists (String.substring 0 (String.length s - String.length suffix) s).
    set (k := String.length s - String.length suffix) in *.
    assert (String.length suffix = String.length s - k) as Hk by lia.
    rewrite Hk in Hsub. rewrite <- Hsub. apply substring_split. lia.
  - intros [stem ->]. rewrite string_length_append. split; [lia|].
    replace (String.length stem + String.length suffix - String.length suffix)
      with (String.length stem) by lia.
    by rewrite substring_skip_append, substring_all.
Qed.

Lemma HasSuffix_false_iff (s suffix : string) :
  strings.HasSuffix s suffix = false <-> ~ exists stem, s = stem +:+ suffix.
Proof. rewrite <- HasSuffix_iff. by destruct (strings.HasSuffix s suffix). Qed.

Lemma HasSuffix_shorter (s s1 s2 : string) :
  strings.HasSuffix s (s1 +:+ s2) = true -> strings.HasSuffix s s2 = true.
Proof.
  rewrite !HasSuffix_iff. intros [stem ->]. exists (stem +:+ s1).
  by rewrite string_append_assoc.
Qed.

(** ** What a load returns *)

Section LoadResults.
Context `{Host}.

Lemma sourceInputs_app codes idx l1 l2 :
  sourceInputs codes idx (l1 ++ l2)
  = sourceInputs codes idx l1 ++ sourceInputs codes (idx + length l1) l2.
Proof.
  revert idx; induction l1 as [|n l1 IH]; intros idx; simpl.
  - by rewrite Nat.add_0_r.
  - rewrite IH. replace (S idx + length l1) with (idx + S (length l1)) by lia.
    by destruct (strings.HasSuffix n ".go").
Qed.


Lemma sourceInputs_no_codes idx names :
  sourceInputs [] idx names
  = map (fun name => (name, None))
        (filter (fun name => strings.HasSuffix name ".go" = true) names).
Proof.
  revert idx; induction names as [|n names IH]; intros idx; simpl; [done|].
  rewrite IH. destruct (strings.HasSuffix n ".go") eqn:Hext.
  - by rewrite filter_cons_True.
  - by rewrite filter_cons_False by congruence.
Qed.

Lemma sourceInputs_names codes idx names :
  (sourceInputs codes idx names).*1
  = filter (fun name => strings.HasSuffix name ".go" = true) names.
Proof.
  revert idx; induction names as [|n names IH]; intros idx; simpl; [done|].
  destruct (strings.HasSuffix n ".go") eqn:Hext.
  - rewrite filter_cons_True by done. simpl. by rewrite IH.
  - rewrite filter_cons_False by congruence. apply IH.
Qed.

Lemma parseInputs_Ok inputs acc files :
  parseInputs inputs acc = Ok files ->
  exists parsed, files = acc ++ map Some parsed /\ Forall2 parsedFrom inputs parsed.
Proof.
  revert acc; induction inputs as [|[name code] inputs IH]; intros acc; simpl.
  - intros [= <-]. exists []. by rewrite app_nil_r.
  - destruct (ParseFile name code) as [file|msg] eqn:Hparse; [|done].
    intros (parsed & -> & Hall)%IH. exists (file :: parsed).
    rewrite <- app_assoc. split; [done|]. by constructor.
Qed.

Lemma parseInputs_Err inputs acc err :
  parseInputs inputs acc = Err err ->
  exists before name code after parsed msg,
    inputs = before ++ (name, code) :: after
    /\ Forall2 parsedFrom before parsed
    /\ ParseFile name code = Err msg
    /\ err = "parsing package: " +:+ name +:+ ": " +:+ msg.
Proof.
  revert acc; induction inputs as [|[name code] inputs IH]; intros acc; simpl; [done|].
  destruct (ParseFile name code) as [file|msg] eqn:Hparse.
  - intros (before & name' & code' & after & parsed & msg & -> & Hall & Hfail & ->)%IH.
    exists ((name, code) :: before), name', code', after, (file :: parsed), msg.
    repeat split; try done. by constructor.
  - intros [= <-]. exists [], name, code, inputs, [], msg. by repeat split.
Qed.

Lemma parseInputs_app i1 i2 acc :
  parseInputs (i1 ++ i2) acc
  = match parseInputs i1 acc with
    | Ok files => parseInputs i2 files
    | Err err => Err err
    end.
Proof.
  revert acc; induction i1 as [|[name code] i1 IH]; intros acc; simpl; [done|].
  destruct (ParseFile name code); [apply IH|done].
Qed.

Lemma AstFiles_loaded (parsed : list ast.File) :
  FileInfos_AstFiles (map Some parsed) = map Some parsed.
Proof. unfold FileInfos_AstFiles, FileInfo_AstFile. apply map_id. Qed.

(** The three ways in which [parsePackage] ends once the files are
    parsed. *)
Lemma parsePackage_cases p directory fileNames codes :
  parsePackage p directory fileNames codes
  = match parseInputs (sourceInputs codes 0 fileNames) [] with
    | Err err => Err err
    | Ok [] => Err (directory +:+ ": no buildable Go files")
    | Ok files =>
        match Check directory (FileInfos_AstFiles files) with
        | (typesPkg, Some e) =>
            if SkipSemanticsCheck p then Ok (mkPackageInfo directory files None)
            else Err e
        | (typesPkg, None) => Ok (mkPackageInfo directory files typesPkg)
        end
    end.
Proof.
  unfold parsePackage. rewrite parseFiles_inputs.
  by destruct (parseInputs _ _) as [[|file files]|err].
Qed.

End LoadResults.

Section LoadTheorems.
Context `{Host}.

Lemma parseInputs_all_parsed inputs parsed acc :
  Forall2 parsedFrom inputs parsed ->
  parseInputs inputs acc = Ok (acc ++ map Some parsed).
Proof.
  intros Hall; revert acc.
  induction Hall as [|[name code] file inputs parsed Hparse _ IH]; intros acc; simpl.
  - by rewrite app_nil_r.
  - unfold parsedFrom in Hparse; simpl in Hparse. rewrite Hparse, IH.
    by rewrite <- app_assoc.
Qed.

Lemma parsePackage_Ok_inv (p : Parser) (directory : string)
    (fileNames codes : list string) (pkg : PackageInfo) :
  parsePackage p directory fileNames codes = Ok pkg ->
  Dir pkg = directory
  /\ exists parsed,
       parsed <> []
       /\ Files pkg = map Some parsed
       /\ Forall2 parsedFrom (sourceInputs codes 0 fileNames) parsed
       /\ (Check directory (FileInfos_AstFiles (Files pkg)) = (Types pkg, None)
           \/ (SkipSemanticsCheck p = true /\ Types pkg = None
               /\ exists typesPkg e,
                    Check directory (FileInfos_AstFiles (Files pkg))
                    = (typesPkg, Some e))).
Proof.
  rewrite parsePackage_cases.
  destruct (parseInputs _ _) as [files|err] eqn:Hparse; [|done].
  apply parseInputs_Ok in Hparse as (parsed & -> & Hall). simpl.
  destruct parsed as [|file parsed]; [done|]. simpl.
  destruct (Check _ _) as [typesPkg [e|]] eqn:Hcheck.
  - destruct (SkipSemanticsCheck p) eqn:Hskip; [|done]. intros [= <-]; simpl.
    split; [done|]. exists (file :: parsed). repeat split; try done.
    right. repeat split; try done. by exists typesPkg, e.
  - intros [= <-]; simpl. split; [done|]. exists (file :: parsed).
    repeat split; try done. by left.
Qed.

(** X1.  A model returned by [parsePackage] has the directory as [Dir];
    its [Files] are not empty, hold no [nil], and are, in order, what the
    parser returned for each name that ends in [.go], given the code at
    the index of that name when there is one; [Types] is the package of
    the checker when the check succeeded and [nil] when its error was
    skipped. *)
Theorem parsePackage_loaded_model (p : Parser) (directory : string)
    (fileNames codes : list string) (pkg : PackageInfo) :
  parsePackage p directory fileNames codes = Ok pkg ->
  Dir pkg = directory
  /\ exists parsed,
       parsed <> []
       /\ Files pkg = map Some parsed
       /\ Forall2 parsedFrom (sourceInputs codes 0 fileNames) parsed
       /\ (Check directory (FileInfos_AstFiles (Files pkg)) = (Types pkg, None)
           \/ (SkipSemanticsCheck p = true /\ Types pkg = None
               /\ exists typesPkg e,
                    Check directory (FileInfos_AstFiles (Files pkg))
                    = (typesPkg, Some e))).
Proof. apply parsePackage_Ok_inv. Qed.

(** X2.  The first file that fails to parse ends the load: when the
    names before it that end in [.go] all parse, the result is the error
    [parsing package: <name>: <parser error>], whatever names follow and
    whether or not the semantics check is skipped. *)
Theorem parsePackage_first_parse_error (p : Parser) (directory : string)
    (before : list string) (fileName : string) (after : list string)
    (codes : list string) (parsed : list ast.File) (msg : error) :
  Forall2 parsedFrom (sourceInputs codes 0 before) parsed ->
  strings.HasSuffix fileName ".go" = true ->
  ParseFile fileName (codes !! length before) = Err msg ->
  parsePackage p directory (before ++ fileName :: after) codes
  = Err ("parsing package: " +:+ fileName +:+ ": " +:+ msg).
Proof.
  intros Hbefore Hext Hfail. rewrite parsePackage_cases, sourceInputs_app.
  rewrite parseInputs_app, (parseInputs_all_parsed _ _ _ Hbefore). simpl.
  by rewrite Hext; simpl; rewrite Hfail.
Qed.

(** X3.  On a model returned by [parsePackage] the method [Name] does not
    panic: it returns the package name of the file parsed for the first
    name that ends in [.go]. *)
Theorem Name_of_loaded_model (p : Parser) (directory : string)
    (fileNames codes : list string) (pkg : PackageInfo) :
  parsePackage p directory fileNames codes = Ok pkg ->
  exists input rest file,
    sourceInputs codes 0 fileNames = input :: rest
    /\ parsedFrom input file
    /\ PackageInfo_Name pkg = Some (ast.Ident_Name (ast.File_Name file)).
Proof.
  intros (_ & parsed & Hne & Hfiles & Hall & _)%parsePackage_Ok_inv.
  destruct Hall as [|input file rest parsed Hparse _]; [done|].
  exists input, rest, file. repeat split; try done.
  unfold PackageInfo_Name. by rewrite Hfiles.
Qed.

(** X4.  The flag [SkipSemanticsCheck] changes the result of a load only
    when the checker reports an error: a model returned without the flag
    is returned with any setting, and an error returned with the flag is
    returned with any setting. *)
Theorem SkipSemanticsCheck_only_skips_check_errors (strict lenient p : Parser)
    (directory : string) (fileNames codes : list string) :
  SkipSemanticsCheck strict = false ->
  SkipSemanticsCheck lenient = true ->
  (forall pkg, parsePackage strict directory fileNames codes = Ok pkg ->
               parsePackage p directory fileNames codes = Ok pkg)
  /\ (forall err, parsePackage lenient directory fileNames codes = Err err ->
                  parsePackage p directory fileNames codes = Err err).
Proof.
  intros Hstrict Hlenient. rewrite !parsePackage_cases, Hstrict, Hlenient.
  destruct (parseInputs _ _) as [[|file files]|err0]; [done| |done].
  by destruct (Check _ _) as [typesPkg [e|]].
Qed.


End LoadTheorems.

Lemma parsePackage_loaded_model_witness :
  Dir pointPkg = "."
  /\ exists parsed,
       parsed <> []
       /\ Files pointPkg = map Some parsed
       /\ Forall2 (@parsedFrom pointHost)
                  (sourceInputs [pointSource] 0 ["point.go"]) parsed
       /\ (@Check pointHost "." (FileInfos_AstFiles (Files pointPkg))
           = (Types pointPkg, None)
           \/ (SkipSemanticsCheck (mkParser false) = true /\ Types pointPkg = None
               /\ exists typesPkg e,
                    @Check pointHost "." (FileInfos_AstFiles (Files pointPkg))
                    = (typesPkg, Some e))).
Proof.
  apply (@parsePackage_loaded_model pointHost (mkParser false) "."
           ["point.go"] [pointSource] pointPkg).
  reflexivity.
Defined.

Lemma parsePackage_first_parse_error_witness :
  @parsePackage diskHost (mkParser true) "geom"
    (["geom/point.go"; "notes.txt"] ++ "geom/broken.go" :: ["geom/shapes.go"]) []
  = Err "parsing package: geom/broken.go: 3:1: expected declaration, found 'IDENT' tpye".
Proof.
  apply (@parsePackage_first_parse_error diskHost (mkParser true) "geom"
           ["geom/point.go"; "notes.txt"] "geom/broken.go" ["geom/shapes.go"] []
           [pointFile]).
  - repeat constructor.
  - reflexivity.
  - reflexivity.
Defined.

Lemma Name_of_loaded_model_witness :
  exists input rest file,
    sourceInputs [] 0 ["README.md"; "geom/shapes.go"; "geom/point.go"] = input :: rest
    /\ @parsedFrom diskHost input file
    /\ PackageInfo_Name
         (mkPackageInfo "geom" [Some shapesFile; Some pointFile]
                        (Some (types.mkPackage "geom" "geom")))
       = Some (ast.Ident_Name (ast.File_Name file)).
Proof.
  apply (@Name_of_loaded_model diskHost (mkParser false) "geom"
           ["README.md"; "geom/shapes.go"; "geom/point.go"] []).
  reflexivity.
Defined.

Lemma SkipSemanticsCheck_only_skips_check_errors_witness :
  @parsePackage pointHost (mkParser true) "." ["point.go"] [pointSource] = Ok pointPkg
  /\ @parsePackage brokenImportHost (mkParser false) "." ["point.go"] ["package"]
     = Err "parsing package: point.go: expected 'package', found 'EOF'".
Proof.
  destruct (@SkipSemanticsCheck_only_skips_check_errors pointHost
              (mkParser false) (mkParser true) (mkParser true) "."
              ["point.go"] [pointSource] eq_refl eq_refl) as [Hmodel _].
  destruct (@SkipSemanticsCheck_only_skips_check_errors brokenImportHost
              (mkParser false) (mkParser true) (mkParser false) "."
              ["point.go"] ["package"] eq_refl eq_refl) as [_ Herror].
  split; [apply Hmodel; reflexivity|apply Herror; reflexivity].
Defined.


Lemma Forall2_map_left {A B C : Type} (P : B -> C -> Prop) (g : A -> B) l k :
  Forall2 P (map g l) k -> Forall2 (fun a => P (g a)) l k.
Proof.
  revert k; induction l as [|a l IH]; intros k Hk; inversion Hk; subst;
    constructor; auto.
Qed.

Section LoadErrors.
Context `{Host}.

(** The names that [sourceInputs] keeps are the names of the form
    [<stem>.go], in the order of the name list. *)
Lemma sourceInputs_stem_go (codes fileNames : list string) :
  parseFiles codes 0 fileNames [] = parseInputs (sourceInputs codes 0 fileNames) []
  /\ (sourceInputs codes 0 fileNames).*1 `sublist_of` fileNames
  /\ (forall name,
        name ∈ (sourceInputs codes 0 fileNames).*1
        <-> name ∈ fileNames /\ exists stem, name = stem +:+ ".go").
Proof.
  split; [apply parseFiles_inputs|]. rewrite sourceInputs_names.
  split; [apply sublist_filter|].
  intros name. rewrite list_elem_of_filter, HasSuffix_iff. tauto.
Qed.

(** X7.  An error returned by [parsePackage] is one of three: the error
    for a name list without any name ending in [.go]; the error of the
    parser on one of the names ending in [.go], prefixed with
    [parsing package: <name>: ]; or, only when the semantics check is
    not skipped, the error of the checker on the parsed files. *)
Theorem parsePackage_error_kinds (p : Parser) (directory : string)
    (fileNames codes : list string) (err : error) :
  parsePackage p directory fileNames codes = Err err ->
  (err = directory +:+ ": no buildable Go files"
   /\ filter (fun name => strings.HasSuffix name ".go" = true) fileNames = [])
  \/ (exists name code msg,
        (name, code) ∈ sourceInputs codes 0 fileNames
        /\ ParseFile name code = Err msg
        /\ err = "parsing package: " +:+ name +:+ ": " +:+ msg)
  \/ (SkipSemanticsCheck p = false
      /\ exists parsed typesPkg,
           Forall2 parsedFrom (sourceInputs codes 0 fileNames) parsed
           /\ Check directory (FileInfos_AstFiles (map Some parsed))
              = (typesPkg, Some err)).
Proof.
  rewrite parsePackage_cases.
  destruct (parseInputs _ _) as [files|err0] eqn:Hparse.
  - apply parseInputs_Ok in Hparse as (parsed & -> & Hall). simpl.
    destruct parsed as [|file parsed]; simpl.
    + intros [= <-]. left. split; [done|].
      rewrite <- sourceInputs_names with (codes := codes) (idx := 0).
      by apply Forall2_nil_inv_r in Hall as ->.
    + destruct (Check _ _) as [typesPkg [e|]] eqn:Hcheck; [|done].
      destruct (SkipSemanticsCheck p); [done|]. intros [= <-].
      right; right. split; [done|]. exists (file :: parsed), typesPkg.
      split; [done|]. exact Hcheck.
  - intros [= <-].
    apply parseInputs_Err in Hparse
      as (before & name & code & after & parsed & msg & Hin & _ & Hfail & ->).
    right; left. exists name, code, msg. repeat split; try done.
    rewrite Hin, elem_of_app. right; left.
Qed.

(** X8.  [ParsePackageDir] wraps an error of the build metadata as
    [cannot process directory <directory>: <error>].  A model it returns
    has the directory as [Dir] and, as [Files], the files read from disk
    for the joined names that end in [.go], taken from the Go files, then
    the cgo files, then the assembly files of the build metadata. *)
Theorem ParsePackageDir_loaded_model (p : Parser) (directory : string) :
  (forall err,
     ImportDir directory = Err err ->
     ParsePackageDir p directory
     = Err ("cannot process directory " +:+ directory +:+ ": " +:+ err))
  /\ (forall pkg,
        ParsePackageDir p directory = Ok pkg ->
        exists meta parsed,
          ImportDir directory = Ok meta
          /\ Dir pkg = directory
          /\ parsed <> []
          /\ Files pkg = map Some parsed
          /\ Forall2 (fun name file => ParseFile name None = Ok file)
               (filter (fun name => strings.HasSuffix name ".go" = true)
                  (pathJoinAll directory
                     (build.GoFiles meta ++ build.CgoFiles meta
                      ++ build.SFiles meta)))
               parsed).
Proof.
  unfold ParsePackageDir. split; [intros err Herr; by rewrite Herr|].
  intros pkg. destruct (ImportDir directory) as [meta|err]; [|done].
  intros (Hdir & parsed & Hne & Hfiles & Hall & _)%parsePackage_Ok_inv.
  exists meta, parsed. repeat split; try done.
  rewrite sourceInputs_no_codes in Hall. apply Forall2_map_left in Hall.
  simpl in Hall. rewrite <- app_assoc in Hall. exact Hall.
Qed.

End LoadErrors.

Lemma parsePackage_error_kinds_witness :
  ("asm" +:+ ": no buildable Go files" = "asm: no buildable Go files"
   /\ filter (fun name => strings.HasSuffix name ".go" = true) ["add_amd64.s"] = [])
  \/ (exists name code msg,
        (name, code) ∈ sourceInputs [] 0 ["add_amd64.s"]
        /\ @ParseFile diskHost name code = Err msg
        /\ "asm: no buildable Go files"
           = "parsing package: " +:+ name +:+ ": " +:+ msg)
  \/ (SkipSemanticsCheck (mkParser false) = false
      /\ exists parsed typesPkg,
           Forall2 (@parsedFrom diskHost) (sourceInputs [] 0 ["add_amd64.s"]) parsed
           /\ @Check diskHost "asm" (FileInfos_AstFiles (map Some parsed))
              = (typesPkg, Some "asm: no buildable Go files")).
Proof.
  pose proof (@parsePackage_error_kinds diskHost (mkParser false) "asm"
                ["add_amd64.s"] [] "asm: no buildable Go files" eq_refl) as Hkinds.
  exact Hkinds.
Defined.

Lemma ParsePackageDir_loaded_model_witness :
  @ParsePackageDir diskHost (mkParser false) "missing"
  = Err "cannot process directory missing: no buildable Go source files in missing"
  /\ exists meta parsed,
       @ImportDir diskHost "geom" = Ok meta
       /\ Dir (mkPackageInfo "geom" [Some pointFile; Some shapesFile]
                 (Some (types.mkPackage "geom" "geom"))) = "geom"
       /\ parsed <> []
       /\ Files (mkPackageInfo "geom" [Some pointFile; Some shapesFile]
                   (Some (types.mkPackage "geom" "geom"))) = map Some parsed
       /\ Forall2 (fun name file => @ParseFile diskHost name None = Ok file)
            (filter (fun name => strings.HasSuffix name ".go" = true)
               (@pathJoinAll diskHost "geom"
                  (build.GoFiles meta ++ build.CgoFiles meta ++ build.SFiles meta)))
            parsed.
Proof.
  split.
  - apply (proj1 (@ParsePackageDir_loaded_model diskHost (mkParser false) "missing")).
    reflexivity.
  - apply (proj2 (@ParsePackageDir_loaded_model diskHost (mkParser false) "geom")).
    reflexivity.
Defined.

(** ** Collecting over several files *)

Lemma loadedFiles_app fs1 fs2 :
  loadedFiles (fs1 ++ fs2) = loadedFiles fs1 ++ loadedFiles fs2.
Proof. unfold loadedFiles. apply flat_map_app. Qed.

Lemma TypeInfos_files_app d d1 d2 t t1 t2 fs1 fs2 :
  PackageInfo_TypeInfos (mkPackageInfo d (fs1 ++ fs2) t)
  = PackageInfo_TypeInfos (mkPackageInfo d1 fs1 t1)
    ++ PackageInfo_TypeInfos (mkPackageInfo d2 fs2 t2).
Proof. rewrite !TypeInfos_gathered; simpl. by rewrite loadedFiles_app, flat_map_app. Qed.

Lemma TypeInfos_unannotated pkg :
  Forall (fun t => AnnotatedComment t = None) (PackageInfo_TypeInfos pkg).
Proof. apply Forall_forall. intros t Ht. by apply TypeInfos_entries in Ht as (_ & _ & _ & _ & ?). Qed.

(** X9.  [TypeInfos] works file by file: on the files of two lists put
    one after the other it returns the entries of the first list followed
    by those of the second, whatever [Dir] and [Types] are, and [nil]
    files add nothing. *)
Theorem TypeInfos_of_concatenated_files (d d1 d2 : string)
    (t t1 t2 : option types.Package) (fs1 fs2 : FileInfos) :
  PackageInfo_TypeInfos (mkPackageInfo d (fs1 ++ fs2) t)
  = PackageInfo_TypeInfos (mkPackageInfo d1 fs1 t1)
    ++ PackageInfo_TypeInfos (mkPackageInfo d2 fs2 t2)
  /\ PackageInfo_TypeInfos (mkPackageInfo d fs1 t)
     = PackageInfo_TypeInfos (mkPackageInfo d (map Some (loadedFiles fs1)) t).
Proof.
  split; [apply TypeInfos_files_app|]. rewrite !TypeInfos_gathered; simpl.
  f_equal. induction fs1 as [|[f|] fs1 IH]; simpl; [done| |done]. by f_equal.
Qed.

(** X10.  The walk does not enter a type declaration that yielded
    entries: in a file whose declarations are all [type] declarations
    with at least one type spec, [TypeInfos] returns the top-level named
    types only, also when a type expression contains a function literal
    that declares a local type. *)
Theorem type_declarations_are_not_entered (directory : string) (file : FileInfo)
    (typesPkg : option types.Package) :
  Forall declaresTypes (ast.File_Decls file) ->
  PackageInfo_TypeInfos (mkPackageInfo directory [Some file] typesPkg)
  = topLevelTypes file.
Proof.
  intros Hall. rewrite TypeInfos_gathered.
  change (loadedFiles (Files (mkPackageInfo directory [Some file] typesPkg)))
    with [file].
  cbn [flat_map]. rewrite app_nil_r, gathered_FileNode, topLevelTypes_ownTypes.
  apply flat_map_ext_Forall. eapply Forall_impl; [exact Hall|].
  intros d (decl & -> & Htok & Hspecs). rewrite gathered_DeclNode; simpl.
  unfold declaredTypes. rewrite (bool_decide_eq_true_2 _ Htok).
  rewrite bool_decide_eq_false_2; [by rewrite app_nil_r|].
  by destruct (typeSpecs (ast.GenDecl_Specs decl)).
Qed.

Lemma type_declarations_are_not_entered_witness :
  localTypeDecls typeInTypeFile = [declT]
  /\ PackageInfo_TypeInfos (mkPackageInfo "." [Some typeInTypeFile] None)
     = topLevelTypes typeInTypeFile.
Proof.
  split; [reflexivity|].
  apply (type_declarations_are_not_entered "." typeInTypeFile None).
  repeat constructor. exists declArrayA. repeat split. discriminate.
Defined.

(** ** Selecting by name *)

Lemma CollectTypeInfos_is_filter pkg typeNames :
  PackageInfo_CollectTypeInfos pkg typeNames
  = filter (fun t => TypeInfo_Name t ∈ typeNames) (PackageInfo_TypeInfos pkg).
Proof. unfold PackageInfo_CollectTypeInfos. by rewrite CollectTypeInfos_fold. Qed.

Lemma filter_all {X : Type} (P : X -> Prop) `{!forall x, Decision (P x)} (l : list X) :
  (forall x, x ∈ l -> P x) -> filter P l = l.
Proof.
  induction l as [|x l IH]; intros Hall; [done|].
  rewrite filter_cons_True by (apply Hall; left).
  f_equal. apply IH. intros y Hy. apply Hall. by right.
Qed.

(** X11.  [CollectTypeInfos] only looks at which names are listed: two
    name lists with the same entries, in any order and with any
    repetitions, select the same declarations. *)
Theorem CollectTypeInfos_names_as_set (pkg : PackageInfo) (names1 names2 : list string) :
  (forall name, name ∈ names1 <-> name ∈ names2) ->
  PackageInfo_CollectTypeInfos pkg names1 = PackageInfo_CollectTypeInfos pkg names2.
Proof.
  intros Hsame. rewrite !CollectTypeInfos_is_filter.
  apply list_filter_iff. intros t. apply Hsame.
Qed.

Lemma CollectTypeInfos_names_as_set_witness :
  PackageInfo_CollectTypeInfos shapesPkg ["Edge"; "Bare"; "Edge"]
  = PackageInfo_CollectTypeInfos shapesPkg ["Bare"; "Edge"].
Proof.
  apply (CollectTypeInfos_names_as_set shapesPkg ["Edge"; "Bare"; "Edge"] ["Bare"; "Edge"]).
  intros name. rewrite !elem_of_cons, !elem_of_nil. tauto.
Defined.

(** X12.  Asking [CollectTypeInfos] for the names of all declarations
    returns all of [TypeInfos], in order; asking for no name returns
    nothing. *)
Theorem CollectTypeInfos_all_and_none (pkg : PackageInfo) :
  PackageInfo_CollectTypeInfos pkg (map TypeInfo_Name (PackageInfo_TypeInfos pkg))
  = PackageInfo_TypeInfos pkg
  /\ PackageInfo_CollectTypeInfos pkg [] = [].
Proof.
  rewrite !CollectTypeInfos_is_filter. split.
  - apply filter_all. intros t Ht. apply list_elem_of_In, in_map, list_elem_of_In, Ht.
  - apply filter_none. intros t _. apply not_elem_of_nil.
Qed.

(** X13.  Selection works file by file: by name and by tag, the result on
    the files of two lists put one after the other is the result on the
    first list followed by the result on the second. *)
Theorem selection_of_concatenated_files (carriesTag : string -> string -> bool)
    (d d1 d2 : string) (t t1 t2 : option types.Package) (fs1 fs2 : FileInfos)
    (typeNames : list string) (tag : string) :
  PackageInfo_CollectTypeInfos (mkPackageInfo d (fs1 ++ fs2) t) typeNames
  = PackageInfo_CollectTypeInfos (mkPackageInfo d1 fs1 t1) typeNames
    ++ PackageInfo_CollectTypeInfos (mkPackageInfo d2 fs2 t2) typeNames
  /\ PackageInfo_CollectTaggedTypeInfos carriesTag (mkPackageInfo d (fs1 ++ fs2) t) tag
     = PackageInfo_CollectTaggedTypeInfos carriesTag (mkPackageInfo d1 fs1 t1) tag
       ++ PackageInfo_CollectTaggedTypeInfos carriesTag (mkPackageInfo d2 fs2 t2) tag.
Proof.
  rewrite !CollectTypeInfos_is_filter, !CollectTagged_omap.
  rewrite (TypeInfos_files_app d d1 d2 t t1 t2). split; [apply filter_app|apply omap_app].
Qed.

(** ** Selecting by tag *)

Lemma clear_setAnnotatedComment t c :
  clearAnnotatedComment (setAnnotatedComment t c) = clearAnnotatedComment t.
Proof. reflexivity. Qed.

Lemma clear_unannotated t : AnnotatedComment t = None -> clearAnnotatedComment t = t.
Proof. destruct t; simpl. by intros ->. Qed.

(** X14.  Whatever the matching rule, [CollectTaggedTypeInfos] returns
    entries of [TypeInfos], in their order, each with [AnnotatedComment]
    set: without the annotation its result is a subsequence of
    [TypeInfos].  The entries of [TypeInfos] and of [CollectTypeInfos]
    carry no annotation. *)
Theorem CollectTagged_annotates_a_subsequence (carriesTag : string -> string -> bool)
    (pkg : PackageInfo) (tag : string) (typeNames : list string) :
  map clearAnnotatedComment (PackageInfo_CollectTaggedTypeInfos carriesTag pkg tag)
    `sublist_of` PackageInfo_TypeInfos pkg
  /\ Forall (fun t => is_Some (AnnotatedComment t))
            (PackageInfo_CollectTaggedTypeInfos carriesTag pkg tag)
  /\ Forall (fun t => AnnotatedComment t = None) (PackageInfo_TypeInfos pkg)
  /\ Forall (fun t => AnnotatedComment t = None)
            (PackageInfo_CollectTypeInfos pkg typeNames).
Proof.
  rewrite CollectTagged_omap, CollectTypeInfos_is_filter.
  pose proof (TypeInfos_unannotated pkg) as Hplain.
  split; [|split; [|split; [done|]]].
  - induction Hplain as [|t types Ht _ IH]; simpl; [done|].
    destruct (findAnnotation carriesTag (TypeInfo_Doc t) tag) as [c|]; simpl.
    + rewrite clear_setAnnotatedComment, (clear_unannotated _ Ht). by constructor.
    + by constructor.
  - apply Forall_forall. intros t (t0 & _ & Ht)%list_elem_of_omap.
    destruct (findAnnotation carriesTag (TypeInfo_Doc t0) tag) as [c|]; [|done].
    injection Ht as <-. by eexists.
  - apply Forall_forall. intros t [_ Ht]%list_elem_of_filter.
    rewrite Forall_forall in Hplain. auto.
Qed.

(** ** Field classification *)

(** X15.  The five shape predicates of a field take one of six
    combinations: none (the type is neither pointer nor collection), a
    pointer, a pointer to a collection, a pointer to a collection of
    pointers, a collection, a collection of pointers; each of the six
    occurs. *)
Theorem shape_flags_six_combinations (f : FieldInfo) :
  shapeFlags f ∈ [(false, false, false, false, false);
                  (true, false, false, false, false);
                  (true, false, true, false, false);
                  (true, false, true, false, true);
                  (false, true, false, false, false);
                  (false, true, false, true, false)]
  /\ [shapeFlags fieldX; shapeFlags fieldPtr; shapeFlags fieldPtrArray;
      shapeFlags fieldPtrArrayPtr; shapeFlags fieldArray; shapeFlags fieldArrayPtr]
     = [(false, false, false, false, false);
        (true, false, false, false, false);
        (true, false, true, false, false);
        (true, false, true, false, true);
        (false, true, false, false, false);
        (false, true, false, true, false)].
Proof.
  split; [|reflexivity].
  unfold shapeFlags, FieldInfo_IsPtr, FieldInfo_IsArray, FieldInfo_IsPtrArray,
    FieldInfo_IsArrayPtr, FieldInfo_IsPtrArrayPtr.
  repeat match goal with
         | |- context [match ?e with _ => _ end] => destruct e
         end;
    rewrite !elem_of_cons; tauto.
Qed.

(** X16.  The seven primitive-kind predicates compare one base type name
    with seven different names, so at most one of them holds for a field;
    [IsNumber] therefore excludes [IsString], [IsBool] and [IsTime]; and
    when the field's type has no base type name, all of them and
    [IsNumber] are false. *)
Theorem kind_predicates_exclude_each_other (f : FieldInfo) :
  trueCount (kindFlags f) <= 1
  /\ (FieldInfo_IsNumber f = true ->
      FieldInfo_IsString f = false /\ FieldInfo_IsBool f = false
      /\ FieldInfo_IsTime f = false)
  /\ (forall err,
        ExprToBaseTypeName (ast.Field_Type f) = Err err ->
        trueCount (kindFlags f) = 0 /\ FieldInfo_IsNumber f = false).
Proof.
  unfold kindFlags, FieldInfo_IsNumber, FieldInfo_IsInt, FieldInfo_IsInt64,
    FieldInfo_IsFloat32, FieldInfo_IsFloat64, FieldInfo_IsString, FieldInfo_IsBool,
    FieldInfo_IsTime, baseTypeNameIs.
  destruct (ExprToBaseTypeName (ast.Field_Type f)) as [name|err0].
  - split; [|split; [|done]];
      repeat match goal with
             | |- context [String.eqb name ?lit] =>
                 destruct (String.eqb_spec name lit) as [->|?]
             end;
      cbn; try lia; try done.
  - split; [cbn; lia|]. split; [done|]. intros err _. split; reflexivity.
Qed.

Lemma kind_predicates_exclude_each_other_witness :
  (FieldInfo_IsString fieldX = false /\ FieldInfo_IsBool fieldX = false
   /\ FieldInfo_IsTime fieldX = false)
  /\ trueCount (kindFlags fieldMap) = 0 /\ FieldInfo_IsNumber fieldMap = false.
Proof.
  split.
  - apply (proj1 (proj2 (kind_predicates_exclude_each_other fieldX))). reflexivity.
  - apply (proj2 (proj2 (kind_predicates_exclude_each_other fieldMap))
             ErrNoBaseTypeName).
    reflexivity.
Defined.

(** ** More on import lookup *)

Lemma unquoted_path_fails_path_tests imp packageIdent :
  strings.HasSuffix (ast.BasicLit_Value (ast.ImportSpec_Path imp)) dquote = false ->
  pathEndsWith imp packageIdent = false /\ pathIs imp packageIdent = false.
Proof.
  intros Hraw. unfold pathEndsWith, pathIs. split.
  - destruct (strings.HasSuffix _ ("/" +:+ _)) eqn:Hends; [|done].
    rewrite <- string_append_assoc in Hends.
    apply HasSuffix_shorter in Hends. congruence.
  - destruct (String.eqb_spec (ast.BasicLit_Value (ast.ImportSpec_Path imp))
                (dquote +:+ packageIdent +:+ dquote)) as [Heq|]; [|done].
    apply HasSuffix_false_iff in Hraw. destruct Hraw.
    exists (dquote +:+ packageIdent). by rewrite string_append_assoc.
Qed.

(** X17.  Tests (b) and (c) expect a path between double quotes.  An
    import whose [Path.Value] does not end in a double quote, as for a
    path written as a raw string literal, passes neither for any
    identifier: the lookup returns it only for its alias. *)
Theorem unquoted_import_found_by_alias_only (file : FileInfo) (packageIdent : string)
    (imp : ast.ImportSpec) :
  strings.HasSuffix (ast.BasicLit_Value (ast.ImportSpec_Path imp)) dquote = false ->
  importMatches imp packageIdent = aliasIs imp packageIdent
  /\ (FileInfo_FindImportSpecByIdent file packageIdent = Some imp ->
      aliasIs imp packageIdent = true).
Proof.
  intros [Hends Hpath]%(fun H => unquoted_path_fails_path_tests imp packageIdent H).
  assert (importMatches imp packageIdent = aliasIs imp packageIdent) as Hsame.
  { unfold importMatches. rewrite Hends, Hpath. by rewrite !orb_false_r. }
  split; [done|].
  intros (_ & _ & _ & Hmatch & _)%FindImportSpecByIdent_first. congruence.
Qed.

Lemma unquoted_import_found_by_alias_only_witness :
  importMatches importRawPathFoo "foo" = aliasIs importRawPathFoo "foo"
  /\ aliasIs importRawAliasFoo "foo" = true.
Proof.
  split.
  - apply (proj1 (unquoted_import_found_by_alias_only rawImportsFile "foo"
                    importRawPathFoo eq_refl)).
  - apply (proj2 (unquoted_import_found_by_alias_only rawImportsFile "foo"
                    importRawAliasFoo eq_refl)).
    reflexivity.
Defined.

(** X18.  When at most one import of the file passes a test for the
    identifier, the single scan returns what trying the alias first, then
    the path ending, then the whole path returns. *)
Theorem unique_match_agrees_with_priority (file : FileInfo) (packageIdent : string) :
  (forall i j,
     i ∈ ast.File_Imports file -> j ∈ ast.File_Imports file ->
     importMatches i packageIdent = true -> importMatches j packageIdent = true ->
     i = j) ->
  FileInfo_FindImportSpecByIdent file packageIdent
  = findImportByPriority (ast.File_Imports file) packageIdent.
Proof.
  intros Hunique.
  destruct (FileInfo_FindImportSpecByIdent file packageIdent) as [m|] eqn:Hfind;
    [|symmetry; by apply FindImportSpecByIdent_none_priority].
  apply FindImportSpecByIdent_first in Hfind as (before & after & Himports & Hm & _).
  assert (m ∈ ast.File_Imports file) as Hin
    by (rewrite Himports, elem_of_app; right; left).
  assert (forall test : ast.ImportSpec -> bool,
            (forall imp, test imp = true -> importMatches imp packageIdent = true) ->
            forall x, List.find test (ast.File_Imports file) = Some x -> x = m)
    as Hfound.
  { intros test Htest x [Hx Htx]%find_some.
    apply (Hunique x m); auto. by apply list_elem_of_In. }
  assert (forall test : ast.ImportSpec -> bool,
            List.find test (ast.File_Imports file) = None -> test m = false)
    as Hmissed.
  { intros test Hnone%find_none_iff. rewrite Forall_forall in Hnone. auto. }
  unfold findImportByPriority, importMatches in *.
  destruct (List.find (fun imp => aliasIs imp packageIdent) _) as [a|] eqn:Ha.
  { f_equal. symmetry. eapply Hfound; [|exact Ha].
    intros imp Himp; cbv beta in Himp. by rewrite Himp. }
  destruct (List.find (fun imp => pathEndsWith imp packageIdent) _) as [b|] eqn:Hb.
  { f_equal. symmetry. eapply Hfound; [|exact Hb].
    intros imp Himp; cbv beta in Himp. by rewrite Himp, orb_true_r. }
  destruct (List.find (fun imp => pathIs imp packageIdent) _) as [c|] eqn:Hc.
  { f_equal. symmetry. eapply Hfound; [|exact Hc].
    intros imp Himp; cbv beta in Himp. by rewrite Himp, orb_true_r. }
  apply Hmissed in Ha, Hb, Hc. simpl in Ha, Hb, Hc. by rewrite Ha, Hb, Hc in Hm.
Qed.

Lemma unique_match_agrees_with_priority_witness :
  FileInfo_FindImportSpecByIdent aliasFirstFile "bar"
  = findImportByPriority (ast.File_Imports aliasFirstFile) "bar".
Proof.
  apply (unique_match_agrees_with_priority aliasFirstFile "bar").
  intros i j Hi Hj Hmi Hmj.
  apply elem_of_cons in Hi as [->|Hi]; [|apply list_elem_of_singleton in Hi as ->;
                                          discriminate Hmi].
  apply elem_of_cons in Hj as [->|Hj]; [done|].
  apply list_elem_of_singleton in Hj as ->. discriminate Hmj.
Defined.

(** ** Names without the extension never reach the parser *)

Lemma parseInputs_agree (H1 H2 : Host) inputs acc :
  Forall (fun input => @ParseFile H1 input.1 input.2 = @ParseFile H2 input.1 input.2)
         inputs ->
  @parseInputs H1 inputs acc = @parseInputs H2 inputs acc.
Proof.
  intros Hall; revert acc.
  induction Hall as [|[name code] inputs Hsame _ IH]; intros acc; simpl; [done|].
  simpl in Hsame. rewrite Hsame. destruct (@ParseFile H2 name code); [apply IH|done].
Qed.

Lemma parsed_names_have_extension (H : Host) inputs parsed :
  Forall (fun input => strings.HasSuffix input.1 ".go" = true) inputs ->
  Forall2 (@parsedFrom H) inputs parsed ->
  Forall2 (fun name file =>
             (exists stem, name = stem +:+ ".go")
             /\ exists code, @ParseFile H name code = Ok file)
          (inputs.*1) parsed.
Proof.
  intros Hext Hall; revert Hext.
  induction Hall as [|[name code] file inputs parsed Hparse _ IH]; intros Hext.
  - constructor.
  - apply Forall_cons_1 in Hext as [Hname Hext]. rewrite fmap_cons.
    constructor; [|by apply IH].
    split; [by apply HasSuffix_iff|]. by exists code.
Qed.

(** X6.  [parsePackage] never hands to the parser a name that is not of
    the form [<stem>.go] (the stem may be empty): with the same checker,
    its result is the same for any two parsers that agree on the names of
    that form.  A model it returns holds one file per name of that form,
    in the order of the name list, each parsed from that name. *)
Theorem names_without_go_extension_are_not_parsed (H1 H2 : Host) (p : Parser)
    (directory : string) (fileNames codes : list string) :
  ((forall name code,
      (exists stem, name = stem +:+ ".go") ->
      @ParseFile H1 name code = @ParseFile H2 name code) ->
   (forall path files, @Check H1 path files = @Check H2 path files) ->
   @parsePackage H1 p directory fileNames codes
   = @parsePackage H2 p directory fileNames codes)
  /\ (forall pkg,
        @parsePackage H1 p directory fileNames codes = Ok pkg ->
        exists parsed,
          Files pkg = map Some parsed
          /\ Forall2 (fun name file =>
                        (exists stem, name = stem +:+ ".go")
                        /\ exists code, @ParseFile H1 name code = Ok file)
                     (filter (fun name => strings.HasSuffix name ".go" = true) fileNames)
                     parsed)
  /\ (forall name,
        name ∈ filter (fun name => strings.HasSuffix name ".go" = true) fileNames
        <-> name ∈ fileNames /\ exists stem, name = stem +:+ ".go").
Proof.
  split; [|split].
  - intros Hparse Hcheck. rewrite !parsePackage_cases.
    rewrite (parseInputs_agree H1 H2).
    + destruct (@parseInputs H2 _ _) as [[|file files]|err]; try done.
      by rewrite Hcheck.
    + eapply Forall_impl; [apply sourceInputs_extension|].
      intros [name code] Hext; simpl in *. apply Hparse. by apply HasSuffix_iff.
  - intros pkg (_ & parsed & _ & Hfiles & Hall & _)%parsePackage_Ok_inv.
    exists parsed. split; [done|].
    rewrite <- (sourceInputs_names codes 0 fileNames).
    apply parsed_names_have_extension; [apply sourceInputs_extension|done].
  - intros name. rewrite list_elem_of_filter, HasSuffix_iff. tauto.
Qed.

Lemma names_without_go_extension_are_not_parsed_witness :
  @parsePackage diskHost (mkParser false) "geom"
    ["README.md"; "geom/point.go"; "add_amd64.s"; "geom/shapes.go"] []
  = @parsePackage pickyHost (mkParser false) "geom"
      ["README.md"; "geom/point.go"; "add_amd64.s"; "geom/shapes.go"] []
  /\ exists parsed,
       Files (mkPackageInfo "geom" [Some pointFile; Some shapesFile]
                (Some (types.mkPackage "geom" "geom"))) = map Some parsed
       /\ Forall2 (fun name file =>
                     (exists stem, name = stem +:+ ".go")
                     /\ exists code, @ParseFile diskHost name code = Ok file)
                  (filter (fun name => strings.HasSuffix name ".go" = true)
                     ["README.md"; "geom/point.go"; "add_amd64.s"; "geom/shapes.go"])
                  parsed.
Proof.
  destruct (names_without_go_extension_are_not_parsed diskHost pickyHost
              (mkParser false) "geom"
              ["README.md"; "geom/point.go"; "add_amd64.s"; "geom/shapes.go"] [])
    as (Hsame & Hloaded & _).
  split.
  - apply Hsame; [|reflexivity].
    intros name code Hstem. apply HasSuffix_iff in Hstem.
    unfold pickyHost; simpl. by rewrite Hstem.
  - apply Hloaded. reflexivity.
Defined.
